(** * CustomerInformation: the customer screen of the shop management system

    A shallow embedding of [src/pages/CustomerInformation.js]: the customer
    and loan records, the client-side sort, search filter and loan summary,
    and the handlers that talk to the document store.

    JavaScript strings are [string]s and the fields of a stored document are
    [option string]: [None] is a field that is missing ([undefined] or
    [null]), [Some s] a field holding the string [s].  Numbers are IEEE-754
    binary64 values, [spec_float] with precision 53 and maximal exponent
    1024. *)

From Stdlib Require Import ZArith Floats.SpecFloat Sorting.Sorted.
From stdpp Require Import base option list strings gmap.

Open Scope string_scope.
Open Scope list_scope.

(** ** JavaScript values and builtins *)

Definition number := spec_float.

Inductive jsval :=
| JUndefined
| JNull
| JBool (b : bool)
| JNum (x : number)
| JStr (s : string).

(** The builtins of the runtime that the component calls.  Their code is not
    part of the repository; the component is embedded over any
    implementation of them. *)
Class Builtins := {
  (** [String.prototype.toLowerCase] *)
  toLowerCase : string → string;
  (** [String.prototype.trim] *)
  trim : string → string;
  (** [a.localeCompare(b)]: negative, zero or positive *)
  localeCompare : string → string → Z;
  (** the global [parseFloat], applied to any value *)
  parseFloat : jsval → number
}.

(** [x + y] on numbers. *)
Definition js_add (x y : number) : number := SFadd 53 1024 x y.

Definition js_zero : number := S754_zero false.

(** [ToBoolean] on a number: [NaN], [+0] and [-0] are falsy. *)
Definition num_truthy (x : number) : bool :=
  match x with
  | S754_zero _ | S754_nan => false
  | _ => true
  end.

Definition isNaN (x : number) : bool :=
  match x with S754_nan => true | _ => false end.

(** [x || d] on numbers. *)
Definition num_or (x d : number) : number := if num_truthy x then x else d.

(** [ToBoolean] on a string field: missing and [''] are falsy. *)
Definition str_truthy (o : option string) : bool :=
  match o with
  | None | Some "" => false
  | Some _ => true
  end.

(** [o || d] where [o] is a string field and [d] a string. *)
Definition str_or (o : option string) (d : string) : string :=
  match o with
  | None | Some "" => d
  | Some s => s
  end.

(** [s.includes(t)]: [t] occurs in [s] as a contiguous run. *)
Fixpoint includes (s t : string) : bool :=
  String.prefix t s ||
  match s with
  | "" => false
  | String _ s' => includes s' t
  end.

(** [o?.m(...)] followed by [||]: a missing receiver gives [undefined],
    which is falsy. *)
Definition opt_test (o : option string) (p : string → bool) : bool :=
  match o with
  | None => false
  | Some s => p s
  end.

(** ** Data model *)

Definition time := Z.

Module Customer.
(** The fields of a document of the [customers] collection. *)
Record data := {
  shopId : option string;
  name : option string;
  phone : option string;
  email : option string;
  address : option string;
  city : option string;
  notes : option string;
  createdAt : option time;
  updatedAt : option time
}.
(** [{ id: doc.id, ...doc.data() }] *)
Record t := { id : string; fields : data }.
End Customer.
Coercion Customer.fields : Customer.t >-> Customer.data.

Module Loan.
(** The fields of a document of the [customerLoans] collection. *)
Record data := {
  shopId : option string;
  customerName : option string;
  amount : jsval;
  timestamp : option time;
  transactionId : option string;
  receiptId : option string;
  status : option string
}.
Record t := { id : string; fields : data }.
End Loan.
Coercion Loan.fields : Loan.t >-> Loan.data.

Section Views.
Context `{!Builtins}.

(** *** Sorting the fetched list (lines 50-54) *)

(** The comparator passed to [sort]. *)
Definition compareByName (a b : Customer.t) : Z :=
  let nameA := toLowerCase (str_or (Customer.name a) "") in
  let nameB := toLowerCase (str_or (Customer.name b) "") in
  localeCompare nameA nameB.

(** [Array.prototype.sort] with a comparator.  The standard leaves the
    algorithm open but requires it to be stable; a stable insertion sort
    stands for it. *)
Fixpoint sort_insert {A} (cmp : A → A → Z) (x : A) (l : list A) : list A :=
  match l with
  | [] => [x]
  | y :: l' => if (0 <? cmp x y)%Z then y :: sort_insert cmp x l' else x :: l
  end.

Definition js_sort {A} (cmp : A → A → Z) (l : list A) : list A :=
  foldr (sort_insert cmp) [] l.

Definition sortCustomers (customersData : list Customer.t) : list Customer.t :=
  js_sort compareByName customersData.

(** *** The search filter (lines 188-192) *)

Definition matchesSearch (searchTerm : string) (customer : Customer.t) : bool :=
  opt_test (Customer.name customer)
           (λ n, includes (toLowerCase n) (toLowerCase searchTerm)) ||
  opt_test (Customer.phone customer) (λ p, includes p searchTerm) ||
  opt_test (Customer.email customer)
           (λ e, includes (toLowerCase e) (toLowerCase searchTerm)).

Definition filteredCustomers (customers : list Customer.t) (searchTerm : string)
  : list Customer.t :=
  List.filter (matchesSearch searchTerm) customers.

(** *** The loan badge (lines 269-279) *)

Definition loanOf (customer : Customer.t) (l : Loan.t) : bool :=
  String.eqb (toLowerCase (str_or (Loan.customerName l) ""))
             (toLowerCase (str_or (Customer.name customer) "")).

Definition custLoans (loans : list Loan.t) (customer : Customer.t) : list Loan.t :=
  List.filter (loanOf customer) loans.

Definition loanTotal (cl : list Loan.t) : number :=
  fold_left (λ s (l : Loan.t), js_add s (num_or (parseFloat (Loan.amount l)) js_zero))
            cl js_zero.

(** The pair [(count, total)] rendered in the badge. *)
Definition loanSummary (loans : list Loan.t) (customer : Customer.t) : nat * number :=
  let cl := custLoans loans customer in
  (length cl, loanTotal cl).

(** *** The loan-history table (line 458) *)

Definition shownStatus (loan : Loan.t) : string :=
  str_or (Loan.status loan) "outstanding".

(** The status column of the table (lines 453-460). *)
Definition statusColumn (selectedCustomerLoans : list Loan.t) : list string :=
  shownStatus <$> selectedCustomerLoans.

End Views.

(** ** The document store

    The remote store is an external collaborator: two collections of
    documents keyed by document id, queried by equality on [shopId], with
    add, update and delete of single documents.  Any request may fail.
    Documents hold the fields of the data model and no field named [id];
    field values are stored as they are given. *)

Inductive collection := Customers | CustomerLoans.

Record store := {
  customerDocs : gmap string Customer.data;
  loanDocs : gmap string Loan.data
}.

Inductive request :=
| Query (c : collection) (shop : string)
| Add (d : Customer.data)
| Update (id : string) (d : Customer.data)
| Delete (id : string).

(** A request as it left the component: the shop that was active when it
    was sent, the document it addressed as stored at that moment (for an
    update or a delete), and whether the store answered with an error. *)
Record sent := {
  by_shop : option string;
  req : request;
  target : option Customer.data;
  failed : bool
}.

(** What the component does not control: which requests fail, with which
    message, and what the clock reads. *)
Record env := {
  fails : nat → option string;
  now : nat → time
}.

(** ** Component state *)

Module Form.
Record t := {
  name : string;
  phone : string;
  email : string;
  address : string;
  city : string;
  notes : string
}.
Definition empty : t := Build_t "" "" "" "" "" "".
End Form.

Inductive field := FName | FPhone | FEmail | FAddress | FCity | FNotes.

(** One field per [useState] of the component. *)
Record state := {
  customers : list Customer.t;
  loading : bool;
  showModal : bool;
  editingCustomer : option Customer.t;
  formData : Form.t;
  error : string;
  success : string;
  searchTerm : string;
  showDeleteModal : bool;
  customerToDelete : option Customer.t;
  loans : list Loan.t;
  loansLoading : bool;
  showLoansModal : bool;
  selectedCustomerLoans : list Loan.t;
  selectedCustomerName : string
}.

Definition initialState : state := {|
  customers := []; loading := true; showModal := false;
  editingCustomer := None; formData := Form.empty; error := ""; success := "";
  searchTerm := ""; showDeleteModal := false; customerToDelete := None;
  loans := []; loansLoading := false; showLoansModal := false;
  selectedCustomerLoans := []; selectedCustomerName := ""
|}.

(** The error banner (line 215): rendered while [error] is not empty. *)
Definition errorBanner (st : state) : option string :=
  match error st with
  | "" => None
  | message => Some message
  end.

(** The component together with its surroundings. *)
Record world := {
  ui : state;
  activeShopId : option string;   (* from [useAuth()] *)
  db : store;
  console : list string;          (* lines written by [console.error] *)
  outbox : list sent;             (* requests sent so far, oldest first *)
  ticks : nat;                    (* how often the clock was read *)
  timers : nat                    (* pending [setTimeout] callbacks *)
}.

Definition with_ui (f : state → state) (w : world) : world :=
  {| ui := f (ui w); activeShopId := activeShopId w; db := db w;
     console := console w; outbox := outbox w; ticks := ticks w;
     timers := timers w |}.

(** ** Effects: state, and errors that can be thrown and caught *)

Inductive result (A : Type) :=
| Ok (a : A)
| Thrown (message : string).
Arguments Ok {A} a.
Arguments Thrown {A} message.

Definition M (A : Type) : Type := world → result A * world.

#[global] Instance M_ret : MRet M := λ A a w, (Ok a, w).
#[global] Instance M_bind : MBind M := λ A B f m w,
  match m w with
  | (Ok a, w') => f a w'
  | (Thrown e, w') => (Thrown e, w')
  end.

(** [try { body } catch (err) { handler }] *)
Definition try_catch (body : M unit) (handler : string → M unit) : M unit := λ w,
  match body w with
  | (Ok a, w') => (Ok a, w')
  | (Thrown e, w') => handler e w'
  end.

(** [try { body } finally { after }] *)
Definition try_finally (body after : M unit) : M unit := λ w,
  match body w with
  | (Ok _, w') => after w'
  | (Thrown e, w') =>
      match after w' with
      | (Ok _, w'') => (Thrown e, w'')
      | r => r
      end
  end.

Definition get : M world := λ w, (Ok w, w).
Definition modify (f : world → world) : M unit := λ w, (Ok tt, f w).

(** The world a handler leaves behind. *)
Definition exec {A} (m : M A) (w : world) : world := snd (m w).

(** ** State setters: one per [useState] *)

Definition setCustomers (v : list Customer.t) : M unit :=
  modify (with_ui (λ s,
    {| customers := v; loading := loading s; showModal := showModal s;
       editingCustomer := editingCustomer s; formData := formData s;
       error := error s; success := success s; searchTerm := searchTerm s;
       showDeleteModal := showDeleteModal s;
       customerToDelete := customerToDelete s; loans := loans s;
       loansLoading := loansLoading s; showLoansModal := showLoansModal s;
       selectedCustomerLoans := selectedCustomerLoans s;
       selectedCustomerName := selectedCustomerName s |})).

Definition setLoading (v : bool) : M unit :=
  modify (with_ui (λ s,
    {| customers := customers s; loading := v; showModal := showModal s;
       editingCustomer := editingCustomer s; formData := formData s;
       error := error s; success := success s; searchTerm := searchTerm s;
       showDeleteModal := showDeleteModal s;
       customerToDelete := customerToDelete s; loans := loans s;
       loansLoading := loansLoading s; showLoansModal := showLoansModal s;
       selectedCustomerLoans := selectedCustomerLoans s;
       selectedCustomerName := selectedCustomerName s |})).

Definition setShowModal (v : bool) : M unit :=
  modify (with_ui (λ s,
    {| customers := customers s; loading := loading s; showModal := v;
       editingCustomer := editingCustomer s; formData := formData s;
       error := error s; success := success s; searchTerm := searchTerm s;
       showDeleteModal := showDeleteModal s;
       customerToDelete := customerToDelete s; loans := loans s;
       loansLoading := loansLoading s; showLoansModal := showLoansModal s;
       selectedCustomerLoans := selectedCustomerLoans s;
       selectedCustomerName := selectedCustomerName s |})).

Definition setEditingCustomer (v : option Customer.t) : M unit :=
  modify (with_ui (λ s,
    {| customers := customers s; loading := loading s;
       showModal := showModal s; editingCustomer := v;
       formData := formData s; error := error s; success := success s;
       searchTerm := searchTerm s; showDeleteModal := showDeleteModal s;
       customerToDelete := customerToDelete s; loans := loans s;
       loansLoading := loansLoading s; showLoansModal := showLoansModal s;
       selectedCustomerLoans := selectedCustomerLoans s;
       selectedCustomerName := selectedCustomerName s |})).

Definition setFormData (v : Form.t) : M unit :=
  modify (with_ui (λ s,
    {| customers := customers s; loading := loading s;
       showModal := showModal s; editingCustomer := editingCustomer s;
       formData := v; error := error s; success := success s;
       searchTerm := searchTerm s; showDeleteModal := showDeleteModal s;
       customerToDelete := customerToDelete s; loans := loans s;
       loansLoading := loansLoading s; showLoansModal := showLoansModal s;
       selectedCustomerLoans := selectedCustomerLoans s;
       selectedCustomerName := selectedCustomerName s |})).

Definition setError (v : string) : M unit :=
  modify (with_ui (λ s,
    {| customers := customers s; loading := loading s;
       showModal := showModal s; editingCustomer := editingCustomer s;
       formData := formData s; error := v; success := success s;
       searchTerm := searchTerm s; showDeleteModal := showDeleteModal s;
       customerToDelete := customerToDelete s; loans := loans s;
       loansLoading := loansLoading s; showLoansModal := showLoansModal s;
       selectedCustomerLoans := selectedCustomerLoans s;
       selectedCustomerName := selectedCustomerName s |})).

Definition setSuccess (v : string) : M unit :=
  modify (with_ui (λ s,
    {| customers := customers s; loading := loading s;
       showModal := showModal s; editingCustomer := editingCustomer s;
       formData := formData s; error := error s; success := v;
       searchTerm := searchTerm s; showDeleteModal := showDeleteModal s;
       customerToDelete := customerToDelete s; loans := loans s;
       loansLoading := loansLoading s; showLoansModal := showLoansModal s;
       selectedCustomerLoans := selectedCustomerLoans s;
       selectedCustomerName := selectedCustomerName s |})).

Definition setSearchTerm (v : string) : M unit :=
  modify (with_ui (λ s,
    {| customers := customers s; loading := loading s;
       showModal := showModal s; editingCustomer := editingCustomer s;
       formData := formData s; error := error s; success := success s;
       searchTerm := v; showDeleteModal := showDeleteModal s;
       customerToDelete := customerToDelete s; loans := loans s;
       loansLoading := loansLoading s; showLoansModal := showLoansModal s;
       selectedCustomerLoans := selectedCustomerLoans s;
       selectedCustomerName := selectedCustomerName s |})).

Definition setShowDeleteModal (v : bool) : M unit :=
  modify (with_ui (λ s,
    {| customers := customers s; loading := loading s;
       showModal := showModal s; editingCustomer := editingCustomer s;
       formData := formData s; error := error s; success := success s;
       searchTerm := searchTerm s; showDeleteModal := v;
       customerToDelete := customerToDelete s; loans := loans s;
       loansLoading := loansLoading s; showLoansModal := showLoansModal s;
       selectedCustomerLoans := selectedCustomerLoans s;
       selectedCustomerName := selectedCustomerName s |})).

Definition setCustomerToDelete (v : option Customer.t) : M unit :=
  modify (with_ui (λ s,
    {| customers := customers s; loading := loading s;
       showModal := showModal s; editingCustomer := editingCustomer s;
       formData := formData s; error := error s; success := success s;
       searchTerm := searchTerm s; showDeleteModal := showDeleteModal s;
       customerToDelete := v; loans := loans s;
       loansLoading := loansLoading s; showLoansModal := showLoansModal s;
       selectedCustomerLoans := selectedCustomerLoans s;
       selectedCustomerName := selectedCustomerName s |})).

Definition setLoans (v : list Loan.t) : M unit :=
  modify (with_ui (λ s,
    {| customers := customers s; loading := loading s;
       showModal := showModal s; editingCustomer := editingCustomer s;
       formData := formData s; error := error s; success := success s;
       searchTerm := searchTerm s; showDeleteModal := showDeleteModal s;
       customerToDelete := customerToDelete s; loans := v;
       loansLoading := loansLoading s; showLoansModal := showLoansModal s;
       selectedCustomerLoans := selectedCustomerLoans s;
       selectedCustomerName := selectedCustomerName s |})).

Definition setLoansLoading (v : bool) : M unit :=
  modify (with_ui (λ s,
    {| customers := customers s; loading := loading s;
       showModal := showModal s; editingCustomer := editingCustomer s;
       formData := formData s; error := error s; success := success s;
       searchTerm := searchTerm s; showDeleteModal := showDeleteModal s;
       customerToDelete := customerToDelete s; loans := loans s;
       loansLoading := v; showLoansModal := showLoansModal s;
       selectedCustomerLoans := selectedCustomerLoans s;
       selectedCustomerName := selectedCustomerName s |})).

Definition setShowLoansModal (v : bool) : M unit :=
  modify (with_ui (λ s,
    {| customers := customers s; loading := loading s;
       showModal := showModal s; editingCustomer := editingCustomer s;
       formData := formData s; error := error s; success := success s;
       searchTerm := searchTerm s; showDeleteModal := showDeleteModal s;
       customerToDelete := customerToDelete s; loans := loans s;
       loansLoading := loansLoading s; showLoansModal := v;
       selectedCustomerLoans := selectedCustomerLoans s;
       selectedCustomerName := selectedCustomerName s |})).

Definition setSelectedCustomerLoans (v : list Loan.t) : M unit :=
  modify (with_ui (λ s,
    {| customers := customers s; loading := loading s;
       showModal := showModal s; editingCustomer := editingCustomer s;
       formData := formData s; error := error s; success := success s;
       searchTerm := searchTerm s; showDeleteModal := showDeleteModal s;
       customerToDelete := customerToDelete s; loans := loans s;
       loansLoading := loansLoading s; showLoansModal := showLoansModal s;
       selectedCustomerLoans := v;
       selectedCustomerName := selectedCustomerName s |})).

Definition setSelectedCustomerName (v : string) : M unit :=
  modify (with_ui (λ s,
    {| customers := customers s; loading := loading s;
       showModal := showModal s; editingCustomer := editingCustomer s;
       formData := formData s; error := error s; success := success s;
       searchTerm := searchTerm s; showDeleteModal := showDeleteModal s;
       customerToDelete := customerToDelete s; loans := loans s;
       loansLoading := loansLoading s; showLoansModal := showLoansModal s;
       selectedCustomerLoans := selectedCustomerLoans s;
       selectedCustomerName := v |})).

(** ** Requests to the store *)

Definition snapshotCustomer (kv : string * Customer.data) : Customer.t :=
  {| Customer.id := kv.1; Customer.fields := kv.2 |}.

Definition snapshotLoan (kv : string * Loan.data) : Loan.t :=
  {| Loan.id := kv.1; Loan.fields := kv.2 |}.

(** [where('shopId', '==', shop)] *)
Definition customersOfShop (shop : string) (d : store) : list Customer.t :=
  List.filter (λ c : Customer.t, bool_decide (Customer.shopId c = Some shop))
              (snapshotCustomer <$> map_to_list (customerDocs d)).

Definition loansOfShop (shop : string) (d : store) : list Loan.t :=
  List.filter (λ l : Loan.t, bool_decide (Loan.shopId l = Some shop))
              (snapshotLoan <$> map_to_list (loanDocs d)).

Definition set_customerDocs (m : gmap string Customer.data) (d : store) : store :=
  {| customerDocs := m; loanDocs := loanDocs d |}.

(** The stored customer document a request addresses. *)
Definition target_of (r : request) (d : store) : option Customer.data :=
  match r with
  | Update id _ | Delete id => customerDocs d !! id
  | Query _ _ | Add _ => None
  end.

(** What the store does with a request that reaches it: a new document gets
    an id that is not in use, an update needs its document to exist and
    replaces the fields it is given (here all of them), a delete of a
    missing document succeeds. *)
Definition answer (r : request) (d : store) : result unit * store :=
  match r with
  | Query _ _ => (Ok tt, d)
  | Add data =>
      (Ok tt, set_customerDocs (<[fresh (dom (customerDocs d)) := data]> (customerDocs d)) d)
  | Update id data =>
      match customerDocs d !! id with
      | Some _ => (Ok tt, set_customerDocs (<[id := data]> (customerDocs d)) d)
      | None => (Thrown "No document to update", d)
      end
  | Delete id => (Ok tt, set_customerDocs (delete id (customerDocs d)) d)
  end.

Definition is_thrown {A} (r : result A) : bool :=
  match r with Thrown _ => true | Ok _ => false end.

Section Handlers.
Context `{!Builtins} (E : env).

(** Send a request: it fails on the way, or the store answers it. *)
Definition send (r : request) : M unit := λ w,
  let entry f := {| by_shop := activeShopId w; req := r;
                    target := target_of r (db w); failed := f |} in
  let '(res, d) :=
    match fails E (length (outbox w)) with
    | Some message => (Thrown message, db w)
    | None => answer r (db w)
    end in
  (res, {| ui := ui w; activeShopId := activeShopId w; db := d;
           console := console w; outbox := outbox w ++ [entry (is_thrown res)];
           ticks := ticks w; timers := timers w |}).

Definition getDocsCustomers (shop : string) : M (list Customer.t) :=
  send (Query Customers shop);; w ← get; mret (customersOfShop shop (db w)).

Definition getDocsLoans (shop : string) : M (list Loan.t) :=
  send (Query CustomerLoans shop);; w ← get; mret (loansOfShop shop (db w)).

Definition addDoc (data : Customer.data) : M unit := send (Add data).
Definition updateDoc (id : string) (data : Customer.data) : M unit :=
  send (Update id data).
Definition deleteDoc (id : string) : M unit := send (Delete id).

(** [new Date()] *)
Definition newDate : M time := λ w,
  (Ok (now E (ticks w)),
   {| ui := ui w; activeShopId := activeShopId w; db := db w;
      console := console w; outbox := outbox w; ticks := S (ticks w);
      timers := timers w |}).

(** [console.error(label, err)] *)
Definition consoleError (label err : string) : M unit :=
  modify (λ w,
    {| ui := ui w; activeShopId := activeShopId w; db := db w;
       console := console w ++ [label +:+ " " +:+ err]; outbox := outbox w;
       ticks := ticks w; timers := timers w |}).

(** [setTimeout(() => setSuccess(''), 3000)] *)
Definition setTimeout : M unit :=
  modify (λ w,
    {| ui := ui w; activeShopId := activeShopId w; db := db w;
       console := console w; outbox := outbox w; ticks := ticks w;
       timers := S (timers w) |}).

(** *** fetchCustomers (lines 34-62) *)
Definition fetchCustomers : M unit :=
  w ← get;
  if negb (str_truthy (activeShopId w)) then mret tt else
  setLoading true;;
  try_finally
    (try_catch
       (customersData ← getDocsCustomers (str_or (activeShopId w) "");
        setCustomers (sortCustomers customersData))
       (λ err,
          consoleError "Error fetching customers:" err;;
          setError "Failed to load customers"))
    (setLoading false).

(** *** fetchLoans (lines 69-83) *)
Definition fetchLoans : M unit :=
  w ← get;
  if negb (str_truthy (activeShopId w)) then mret tt else
  setLoansLoading true;;
  try_finally
    (try_catch
       (loanData ← getDocsLoans (str_or (activeShopId w) "");
        setLoans loanData)
       (λ err, consoleError "Error fetching customer loans:" err))
    (setLoansLoading false).

(** *** handleInputChange (lines 87-93) *)
Definition setField (f : field) (value : string) (prev : Form.t) : Form.t :=
  let '(Form.Build_t n p e a c o) := prev in
  match f with
  | FName => Form.Build_t value p e a c o
  | FPhone => Form.Build_t n value e a c o
  | FEmail => Form.Build_t n p value a c o
  | FAddress => Form.Build_t n p e value c o
  | FCity => Form.Build_t n p e a value o
  | FNotes => Form.Build_t n p e a c value
  end.

Definition handleInputChange (f : field) (value : string) : M unit :=
  w ← get; setFormData (setField f value (formData (ui w))).

(** *** resetForm (lines 171-181) *)
Definition resetForm : M unit :=
  setFormData Form.empty;; setEditingCustomer None.

(** The object literal of lines 111-116. *)
Definition customerData (fd : Form.t) (shop : string)
           (createdAt : option time) (updatedAt : time) : Customer.data :=
  {| Customer.shopId := Some shop;
     Customer.name := Some (Form.name fd);
     Customer.phone := Some (Form.phone fd);
     Customer.email := Some (Form.email fd);
     Customer.address := Some (Form.address fd);
     Customer.city := Some (Form.city fd);
     Customer.notes := Some (Form.notes fd);
     Customer.createdAt := createdAt;
     Customer.updatedAt := Some updatedAt |}.

(** *** handleSubmit (lines 95-135) *)
Definition handleSubmit : M unit :=
  w ← get;
  let st := ui w in
  setError "";;
  setSuccess "";;
  if String.eqb (trim (Form.name (formData st))) "" then
    setError "Customer name is required"
  else if negb (str_truthy (activeShopId w)) then
    setError "Shop ID is missing"
  else
    try_catch
      (createdAt ← match editingCustomer st with
                   | Some c => mret (Customer.createdAt c)
                   | None => d ← newDate; mret (Some d)
                   end;
       updatedAt ← newDate;
       let data := customerData (formData st) (str_or (activeShopId w) "")
                                createdAt updatedAt in
       match editingCustomer st with
       | Some c =>
           updateDoc (Customer.id c) data;;
           setSuccess "Customer updated successfully"
       | None =>
           addDoc data;;
           setSuccess "Customer added successfully"
       end;;
       setShowModal false;;
       resetForm;;
       fetchCustomers;;
       setTimeout)
      (λ err,
         consoleError "Error saving customer:" err;;
         setError ("Failed to save customer: " +:+ err)).

(** *** handleEdit (lines 137-148) *)
Definition handleEdit (customer : Customer.t) : M unit :=
  setEditingCustomer (Some customer);;
  setFormData
    {| Form.name := str_or (Customer.name customer) "";
       Form.phone := str_or (Customer.phone customer) "";
       Form.email := str_or (Customer.email customer) "";
       Form.address := str_or (Customer.address customer) "";
       Form.city := str_or (Customer.city customer) "";
       Form.notes := str_or (Customer.notes customer) "" |};;
  setShowModal true.

(** *** handleDelete (lines 150-153) *)
Definition handleDelete (customer : Customer.t) : M unit :=
  setCustomerToDelete (Some customer);;
  setShowDeleteModal true.

(** *** confirmDelete (lines 155-169) *)
Definition confirmDelete : M unit :=
  w ← get;
  match customerToDelete (ui w) with
  | None => mret tt
  | Some c =>
      try_catch
        (deleteDoc (Customer.id c);;
         setSuccess "Customer deleted successfully";;
         setShowDeleteModal false;;
         setCustomerToDelete None;;
         fetchCustomers;;
         setTimeout)
        (λ err,
           consoleError "Error deleting customer:" err;;
           setError ("Failed to delete customer: " +:+ err))
  end.

(** *** handleCloseModal (lines 183-186) *)
Definition handleCloseModal : M unit :=
  setShowModal false;; resetForm.

(** The [View Loans] button (lines 286-291). *)
Definition viewLoans (customer : Customer.t) : M unit :=
  w ← get;
  setSelectedCustomerLoans (custLoans (loans (ui w)) customer);;
  setSelectedCustomerName (str_or (Customer.name customer) "");;
  setShowLoansModal true.

End Handlers.

(** ** The screen as a transition system

    In [step] and [run] a handler runs to completion, replies included,
    before the next event is taken: they describe a screen on which every
    reply is back before the user goes on.  Events that come in while a
    handler waits at an [await] are the matter of [act] and [session_run]
    further down. *)

Inductive event :=
| ShopChange (shop : option string)  (* [useAuth()] hands out another shop *)
| InputChange (f : field) (value : string)
| Submit
| ClickAdd
| ClickEdit (row : nat)
| ClickDelete (row : nat)
| ClickViewLoans (row : nat)
| ConfirmDelete
| CloseModal
| CloseDeleteModal
| CloseLoansModal
| Search (term : string)
| DismissError
| DismissSuccess
| TimerFires.

Section Screen.
Context `{!Builtins} (E : env).

(** The effects of lines 64-85, run after mounting and whenever
    [activeShopId] changes. *)
Definition effects : M unit := fetchCustomers E;; fetchLoans E.

(** The component before its first render, next to a store [d]. *)
Definition initialWorld (shop : option string) (d : store) : world :=
  {| ui := initialState; activeShopId := shop; db := d; console := [];
     outbox := []; ticks := 0; timers := 0 |}.

Definition mounted (shop : option string) (d : store) : world :=
  exec effects (initialWorld shop d).

Definition set_activeShopId (shop : option string) (w : world) : world :=
  {| ui := ui w; activeShopId := shop; db := db w; console := console w;
     outbox := outbox w; ticks := ticks w; timers := timers w |}.

(** The rows of the table (lines 236-261): none while the spinner shows. *)
Definition rows (st : state) : list Customer.t :=
  if loading st then [] else filteredCustomers (customers st) (searchTerm st).

Definition onRow (row : nat) (h : Customer.t → M unit) : M unit :=
  w ← get;
  match rows (ui w) !! row with
  | Some customer => h customer
  | None => mret tt
  end.

Definition handle (ev : event) : M unit :=
  w ← get;
  match ev with
  | ShopChange shop =>
      if decide (shop = activeShopId w) then mret tt
      else modify (set_activeShopId shop);; effects
  | InputChange f value =>
      if showModal (ui w) then handleInputChange f value else mret tt
  | Submit => if showModal (ui w) then handleSubmit E else mret tt
  | ClickAdd => resetForm;; setShowModal true
  | ClickEdit row => onRow row handleEdit
  | ClickDelete row => onRow row handleDelete
  | ClickViewLoans row => onRow row viewLoans
  | ConfirmDelete => if showDeleteModal (ui w) then confirmDelete E else mret tt
  | CloseModal => handleCloseModal
  | CloseDeleteModal => setShowDeleteModal false
  | CloseLoansModal => setShowLoansModal false
  | Search term => setSearchTerm term
  | DismissError => setError ""
  | DismissSuccess => setSuccess ""
  | TimerFires =>
      match timers w with
      | O => mret tt
      | S n =>
          modify (λ w, {| ui := ui w; activeShopId := activeShopId w;
                          db := db w; console := console w;
                          outbox := outbox w; ticks := ticks w;
                          timers := n |});;
          setSuccess ""
      end
  end.

Definition step (w : world) (ev : event) : world := exec (handle ev) w.

Definition run (w : world) (evs : list event) : world := fold_left step evs w.

End Screen.

(** ** A concrete runtime for examples

    On strings of ASCII letters, digits and spaces the functions below agree
    with the builtins of a JavaScript engine. *)

Definition ascii_lower (c : Ascii.ascii) : Ascii.ascii :=
  let n := Ascii.nat_of_ascii c in
  if (65 <=? n)%nat && (n <=? 90)%nat then Ascii.ascii_of_nat (n + 32) else c.

Fixpoint ascii_toLowerCase (s : string) : string :=
  match s with
  | "" => ""
  | String c s' => String (ascii_lower c) (ascii_toLowerCase s')
  end.

Fixpoint trimStart (s : string) : string :=
  match s with
  | String c s' => if Ascii.eqb c (Ascii.ascii_of_nat 32) then trimStart s' else s
  | "" => ""
  end.

Definition ascii_trim (s : string) : string :=
  String.rev (trimStart (String.rev (trimStart s))).

Definition ascii_localeCompare (a b : string) : Z :=
  match String.compare a b with
  | Lt => (-1)%Z
  | Eq => 0%Z
  | Gt => 1%Z
  end.

Fixpoint digits (s : string) (acc : N) : option N :=
  match s with
  | "" => Some acc
  | String c s' =>
      let n := Ascii.N_of_ascii c in
      if (48 <=? n)%N && (n <=? 57)%N then digits s' (10 * acc + (n - 48))%N
      else None
  end.

(** Numbers, and strings of decimal digits only; anything else is [NaN]. *)
Definition ascii_parseFloat (v : jsval) : number :=
  match v with
  | JNum (S754_zero _) => S754_zero false
  | JNum x => x
  | JStr (String c s) =>
      match digits (String c s) 0 with
      | Some n => binary_normalize 53 1024 (Z.of_N n) 0 false
      | None => S754_nan
      end
  | _ => S754_nan
  end.

#[global] Instance ascii_runtime : Builtins := {|
  toLowerCase := ascii_toLowerCase;
  trim := ascii_trim;
  localeCompare := ascii_localeCompare;
  parseFloat := ascii_parseFloat
|}.


(** ** Replies in flight

    [step] takes an event together with the replies its handler waits for
    as one transition: of all schedules it is the one in which every reply
    is back before the next event.  Below a handler stops at its [await]
    and goes on when the reply arrives, with what its closure holds (the
    [activeShopId], [editingCustomer] and [fetchCustomers] of the render it
    was created in), and other events may come in between.  The store
    handles a request when it is sent; it is the reply that takes time. *)

(** The promise [m] returns: its outcome, to be awaited. *)
Definition promise {A} (m : M A) : M (result A) := λ w,
  let '(r, w') := m w in (Ok r, w').

(** [await p], once [p] has settled with [r]. *)
Definition await {A} (r : result A) : M A := λ w, (r, w).

(** [try { body } catch (err) { handler }] around a body with a value. *)
Definition try_catching {A} (body : M A) (handler : string → M A) : M A := λ w,
  match body w with
  | (Ok a, w') => (Ok a, w')
  | (Thrown e, w') => handler e w'
  end.

(** A reply on its way to the handler that awaits it, with what the rest of
    the handler reads from its closure. *)
Inductive reply :=
| CustomersReply (r : result (list Customer.t))   (* [fetchCustomers], line 44 *)
| LoansReply (r : result (list Loan.t))           (* [fetchLoans], line 75 *)
| SaveReply (activeShopId : option string) (editing : bool)
            (r : result unit)                     (* [handleSubmit], lines 120 and 123 *)
| DeleteReply (activeShopId : option string)
              (r : result unit).                  (* [confirmDelete], line 159 *)

Section Async.
Context `{!Builtins} (E : env).

(** *** fetchCustomers, up to its [await] (lines 35-44) and from there on
    (lines 45-61).  It is the [fetchCustomers] of a render, whose
    [activeShopId] it reads. *)
Definition fetchCustomers_sent (activeShopId : option string)
  : M (list reply) :=
  if negb (str_truthy activeShopId) then mret [] else
  setLoading true;;
  r ← promise (getDocsCustomers E (str_or activeShopId ""));
  mret [CustomersReply r].

Definition fetchCustomers_resumed (r : result (list Customer.t)) : M unit :=
  try_finally
    (try_catch
       (customersData ← await r;
        setCustomers (sortCustomers customersData))
       (λ err,
          consoleError "Error fetching customers:" err;;
          setError "Failed to load customers"))
    (setLoading false).

(** *** fetchLoans, up to line 75 and from there on *)
Definition fetchLoans_sent (activeShopId : option string) : M (list reply) :=
  if negb (str_truthy activeShopId) then mret [] else
  setLoansLoading true;;
  r ← promise (getDocsLoans E (str_or activeShopId ""));
  mret [LoansReply r].

Definition fetchLoans_resumed (r : result (list Loan.t)) : M unit :=
  try_finally
    (try_catch
       (loanData ← await r;
        setLoans loanData)
       (λ err, consoleError "Error fetching customer loans:" err))
    (setLoansLoading false).

(** *** handleSubmit, up to the [await] of line 120 or 123 *)
Definition handleSubmit_sent : M (list reply) :=
  w ← get;
  let st := ui w in
  setError "";;
  setSuccess "";;
  if String.eqb (trim (Form.name (formData st))) "" then
    setError "Customer name is required";; mret []
  else if negb (str_truthy (activeShopId w)) then
    setError "Shop ID is missing";; mret []
  else
    createdAt ← match editingCustomer st with
                | Some c => mret (Customer.createdAt c)
                | None => d ← newDate E; mret (Some d)
                end;
    updatedAt ← newDate E;
    let data := customerData (formData st) (str_or (activeShopId w) "")
                             createdAt updatedAt in
    match editingCustomer st with
    | Some c =>
        r ← promise (updateDoc E (Customer.id c) data);
        mret [SaveReply (activeShopId w) true r]
    | None =>
        r ← promise (addDoc E data);
        mret [SaveReply (activeShopId w) false r]
    end.

(** *** handleSubmit, from its [await] on (lines 120-134) *)
Definition handleSubmit_resumed (activeShopId : option string)
           (editing : bool) (r : result unit) : M (list reply) :=
  try_catching
    (await r;;
     setSuccess (if editing then "Customer updated successfully"
                 else "Customer added successfully");;
     setShowModal false;;
     resetForm;;
     reload ← fetchCustomers_sent activeShopId;
     setTimeout;;
     mret reload)
    (λ err,
       consoleError "Error saving customer:" err;;
       setError ("Failed to save customer: " +:+ err);;
       mret []).

(** *** confirmDelete, up to the [await] of line 159 and from there on *)
Definition confirmDelete_sent : M (list reply) :=
  w ← get;
  match customerToDelete (ui w) with
  | None => mret []
  | Some c =>
      r ← promise (deleteDoc E (Customer.id c));
      mret [DeleteReply (activeShopId w) r]
  end.

Definition confirmDelete_resumed (activeShopId : option string)
           (r : result unit) : M (list reply) :=
  try_catching
    (await r;;
     setSuccess "Customer deleted successfully";;
     setShowDeleteModal false;;
     setCustomerToDelete None;;
     reload ← fetchCustomers_sent activeShopId;
     setTimeout;;
     mret reload)
    (λ err,
       consoleError "Error deleting customer:" err;;
       setError ("Failed to delete customer: " +:+ err);;
       mret []).

(** The effects of lines 64-85: both run up to their [await]. *)
Definition effects_sent : M (list reply) :=
  w ← get;
  forCustomers ← fetchCustomers_sent (activeShopId w);
  forLoans ← fetchLoans_sent (activeShopId w);
  mret (forCustomers ++ forLoans).

(** The screen and the replies it waits for, oldest first. *)
Record session := {
  screen : world;
  inflight : list reply
}.

Inductive action :=
| Event (ev : event)     (* an event of the screen *)
| Arrives (i : nat).     (* the reply number [i] in flight arrives *)

(** An event, up to the first [await] of its handler. *)
Definition started (ev : event) : M (list reply) :=
  w ← get;
  match ev with
  | ShopChange shop =>
      if decide (shop = activeShopId w) then mret []
      else modify (set_activeShopId shop);; effects_sent
  | Submit => if showModal (ui w) then handleSubmit_sent else mret []
  | ConfirmDelete =>
      if showDeleteModal (ui w) then confirmDelete_sent else mret []
  | _ => handle E ev;; mret []
  end.

(** The rest of the handler that awaits [r]. *)
Definition resumed (r : reply) : M (list reply) :=
  match r with
  | CustomersReply r => fetchCustomers_resumed r;; mret []
  | LoansReply r => fetchLoans_resumed r;; mret []
  | SaveReply activeShopId editing r =>
      handleSubmit_resumed activeShopId editing r
  | DeleteReply activeShopId r => confirmDelete_resumed activeShopId r
  end.

(** The replies a handler left in flight. *)
Definition awaited (r : result (list reply)) : list reply :=
  match r with
  | Ok replies => replies
  | Thrown _ => []
  end.

Definition act (s : session) (a : action) : session :=
  match a with
  | Event ev =>
      let '(r, w) := started ev (screen s) in
      {| screen := w; inflight := inflight s ++ awaited r |}
  | Arrives i =>
      match inflight s !! i with
      | Some reply =>
          let '(r, w) := resumed reply (screen s) in
          {| screen := w; inflight := delete i (inflight s) ++ awaited r |}
      | None => s
      end
  end.

Definition session_run (s : session) (actions : list action) : session :=
  fold_left act actions s.

(** The component after its first render: both effects wait for their
    reply. *)
Definition mountedSession (shop : option string) (d : store) : session :=
  let '(r, w) := effects_sent (initialWorld shop d) in
  {| screen := w; inflight := awaited r |}.

End Async.
(** * Vocabulary of the properties *)

(** ** Strings and numbers *)

(** [t] occurs in [s]. *)
Definition substringOf (t s : string) : Prop :=
  ∃ pre post, s = pre +:+ t +:+ post.

(** SameValueZero: equal, where [+0] and [-0] count as the same number (and
    [NaN] as equal to itself). *)
Definition sameValueZero (x y : number) : Prop :=
  x = y ∨ ∃ sx sy, x = S754_zero sx ∧ y = S754_zero sy.

(** [a] may stand before [b] under the comparator [cmp]. *)
Definition inOrder {A} (cmp : A → A → Z) (a b : A) : Prop := (cmp a b ≤ 0)%Z.

Section Vocabulary.
Context `{!Builtins}.

(** ** Search: what the filter of lines 188-192 tests, clause by clause *)

Definition nameMatches (term : string) (c : Customer.t) : Prop :=
  ∃ n, Customer.name c = Some n ∧
       substringOf (toLowerCase term) (toLowerCase n).

Definition emailMatches (term : string) (c : Customer.t) : Prop :=
  ∃ e, Customer.email c = Some e ∧
       substringOf (toLowerCase term) (toLowerCase e).

(** The phone compared with the term as typed. *)
Definition phoneMatchesVerbatim (term : string) (c : Customer.t) : Prop :=
  ∃ p, Customer.phone c = Some p ∧ substringOf term p.

(** The phone compared with the lowercased term. *)
Definition phoneMatchesLowered (term : string) (c : Customer.t) : Prop :=
  ∃ p, Customer.phone c = Some p ∧ substringOf (toLowerCase term) p.

(** The order of the list kept in state: by lowercased name, a missing name
    being the empty string. *)
Definition byLowercaseName (a b : Customer.t) : Prop :=
  (localeCompare (toLowerCase (default "" (Customer.name a)))
                 (toLowerCase (default "" (Customer.name b))) ≤ 0)%Z.

(** ** Loans of a customer as the data model describes them *)

(** The names agree once both are lowercased, a missing name being the empty
    string. *)
Definition sameNameIgnoringCase (a b : option string) : Prop :=
  toLowerCase (default "" a) = toLowerCase (default "" b).

#[global] Instance sameNameIgnoringCase_dec a b :
  Decision (sameNameIgnoringCase a b).
Proof. unfold sameNameIgnoringCase. apply _. Defined.

Fixpoint countLoans (name : option string) (loans : list Loan.t) : nat :=
  match loans with
  | [] => 0
  | l :: rest =>
      if decide (sameNameIgnoringCase (Loan.customerName l) name)
      then S (countLoans name rest) else countLoans name rest
  end.

(** The amount of a loan, zero when it does not parse to a number. *)
Definition amountOrZero (l : Loan.t) : number :=
  let x := parseFloat (Loan.amount l) in
  if isNaN x then js_zero else x.

(** The sum of the amounts of the loans of [name], added up in list order
    from [acc]. *)
Fixpoint sumLoans (name : option string) (acc : number) (loans : list Loan.t)
  : number :=
  match loans with
  | [] => acc
  | l :: rest =>
      if decide (sameNameIgnoringCase (Loan.customerName l) name)
      then sumLoans name (js_add acc (amountOrZero l)) rest
      else sumLoans name acc rest
  end.

End Vocabulary.

(** ** Handlers and their requests *)

(** [m] keeps [I]: started where [I] holds, it ends where [I] holds, whether
    it returns or throws. *)
Definition keeps {A} (I : world → Prop) (m : M A) : Prop :=
  ∀ w, I w → I (m w).2.

(** The requests a handler sent: the entries it added to the outbox. *)
Definition sentBy {A} (m : M A) (w : world) : list sent :=
  drop (length (outbox w)) (outbox (exec m w)).

Definition isWrite (r : request) : bool :=
  match r with
  | Add _ | Update _ _ => true
  | Query _ _ | Delete _ => false
  end.

(** ** Shop scoping *)

(** A query filters by the given shop; a document written carries it. *)
Definition scoped (shop : option string) (r : request) : Prop :=
  match r with
  | Query _ s => shop = Some s
  | Add d | Update _ d => Customer.shopId d = shop
  | Delete _ => True
  end.

#[global] Instance scoped_dec shop r : Decision (scoped shop r).
Proof. destruct r; simpl; apply _. Defined.


(** The stored document the request addressed, if any, belonged to the shop
    that was active when it was sent. *)
Definition target_ok (e : sent) : Prop :=
  ∀ doc, target e = Some doc → Customer.shopId doc = by_shop e.

#[global] Instance target_ok_dec e : Decision (target_ok e).
Proof.
  unfold target_ok. destruct (target e) as [doc|].
  - destruct (decide (Customer.shopId doc = by_shop e)) as [Heq|Hne].
    + left. by intros ? [= <-].
    + right. intros Hd. by apply Hne, Hd.
  - left. by intros.
Defined.


(** The customers the component holds on to. *)
Definition snapshots (st : state) : list Customer.t :=
  customers st ++ option_list (editingCustomer st)
               ++ option_list (customerToDelete st).

(** The event leaves the active shop as it is. *)
Definition staysIn (shop : option string) (ev : event) : Prop :=
  match ev with
  | ShopChange s => s = shop
  | _ => True
  end.

(** ** Example data *)

Definition exampleCustomer (shop name phone : string) : Customer.data :=
  {| Customer.shopId := Some shop; Customer.name := Some name;
     Customer.phone := Some phone; Customer.email := None;
     Customer.address := None; Customer.city := None; Customer.notes := None;
     Customer.createdAt := Some 5%Z; Customer.updatedAt := Some 5%Z |}.

(** A customer document with no name, phone or e-mail. *)
Definition anonymousCustomer (shop : string) : Customer.data :=
  {| Customer.shopId := Some shop; Customer.name := None;
     Customer.phone := None; Customer.email := None;
     Customer.address := None; Customer.city := None; Customer.notes := None;
     Customer.createdAt := None; Customer.updatedAt := None |}.

Definition exampleLoan (shop name : string) (amount : jsval)
           (status : option string) : Loan.data :=
  {| Loan.shopId := Some shop; Loan.customerName := Some name;
     Loan.amount := amount; Loan.timestamp := None;
     Loan.transactionId := None; Loan.receiptId := None;
     Loan.status := status |}.

(** Two customers of shop A, one of shop B. *)
Definition exampleStore : store :=
  {| customerDocs :=
       {[ "c1" := exampleCustomer "A" "Bob" "0300";
          "c2" := exampleCustomer "B" "amy" "22";
          "c3" := exampleCustomer "A" "Al" "0301" ]};
     loanDocs :=
       {[ "l1" := exampleLoan "A" "BOB" (JStr "12") None;
          "l2" := exampleLoan "A" "al" (JStr "x") (Some "paid") ]} |}.

Definition exampleClock (n : nat) : time := Z.of_nat (1000 + n).

(** Every request is answered. *)
Definition reliable : env := {| fails := λ _, None; now := exampleClock |}.

(** The request number [k] fails. *)
Definition offlineAt (k : nat) : env :=
  {| fails := λ n, if (n =? k)%nat then Some "offline" else None;
     now := exampleClock |}.

(** The screen of shop A once loaded, and with the form opened on a new
    customer or on the first row. *)
Definition loadedA : world := mounted reliable (Some "A") exampleStore.

Definition addingZed : world :=
  run reliable loadedA [ClickAdd; InputChange FName "Zed"].

Definition editingFirstRow : world :=
  run reliable loadedA [ClickEdit 0; InputChange FPhone "0311"].

(** A form holding only blanks in the name field. *)
Definition blankName : world :=
  run reliable loadedA [ClickAdd; InputChange FName "  "].

(** The same forms on a screen mounted without an active shop. *)
Definition noShopZed : world :=
  run reliable (mounted reliable None exampleStore)
      [ClickAdd; InputChange FName "Zed"].

Definition noShopBlankName : world :=
  run reliable (mounted reliable None exampleStore)
      [ClickAdd; InputChange FName "  "].

(** Snapshots of three documents. *)
Definition bob : Customer.t :=
  {| Customer.id := "c1"; Customer.fields := exampleCustomer "A" "Bob" "0300" |}.

Definition al : Customer.t :=
  {| Customer.id := "c3"; Customer.fields := exampleCustomer "A" "Al" "0301" |}.

(** A customer whose phone holds a capital letter. *)
Definition bobExt : Customer.t :=
  {| Customer.id := "c4"; Customer.fields := exampleCustomer "A" "Bob" "0300X" |}.

Definition anonymous : Customer.t :=
  {| Customer.id := "c9"; Customer.fields := anonymousCustomer "A" |}.

Definition paidLoan : Loan.t :=
  {| Loan.id := "l2";
     Loan.fields := exampleLoan "A" "al" (JStr "x") (Some "paid") |}.

Definition openLoan : Loan.t :=
  {| Loan.id := "l1"; Loan.fields := exampleLoan "A" "BOB" (JStr "12") None |}.

(** Shop A is loaded, the screen switches to shop B while the store cannot
    be reached for the customers of B, and the first row still shown is
    deleted. *)
Definition staleDelete : world :=
  run (offlineAt 2) (mounted (offlineAt 2) (Some "A") exampleStore)
      [ShopChange (Some "B"); ClickDelete 0; ConfirmDelete].

(** * More of the screen *)

(** ** Rendering (lines 205 and 236-315) *)

(** The two texts of lines 244: for a search without result, and for a
    list without customers. *)
Inductive emptyMessage := NoCustomersFound | NoCustomersYet.

(** What stands in the card (lines 236-315). *)
Inductive tableView :=
| Spinner
| EmptyState (message : emptyMessage)
| Table (shown : list Customer.t).

Section Rendering.
Context `{!Builtins}.

Definition renderTable (st : state) : tableView :=
  if loading st then Spinner
  else match filteredCustomers (customers st) (searchTerm st) with
       | [] => EmptyState (match searchTerm st with
                           | "" => NoCustomersYet
                           | _ => NoCustomersFound
                           end)
       | shown => Table shown
       end.

(** [customers.length], the header metric (line 205). *)
Definition totalCustomers (st : state) : nat := length (customers st).

End Rendering.

(** ** Vocabulary *)

(** The field [f] of the form. *)
Definition getField (f : field) (fd : Form.t) : string :=
  match f with
  | FName => Form.name fd
  | FPhone => Form.phone fd
  | FEmail => Form.email fd
  | FAddress => Form.address fd
  | FCity => Form.city fd
  | FNotes => Form.notes fd
  end.

#[global] Instance field_eq_dec : EqDecision field.
Proof. solve_decision. Defined.

(** The customer holds a name, a phone or an e-mail. *)
Definition hasContactField (c : Customer.t) : bool :=
  match Customer.name c, Customer.phone c, Customer.email c with
  | None, None, None => false
  | _, _, _ => true
  end.


(** The event is neither a submit nor a confirmed delete. *)
Definition readOnly (ev : event) : Prop :=
  match ev with
  | Submit | ConfirmDelete => False
  | _ => True
  end.

(** ** More example data *)

Definition bobUpper : Customer.t :=
  {| Customer.id := "c5"; Customer.fields := exampleCustomer "B" "BOB" "1" |}.

Definition namelessLoan : Loan.t :=
  {| Loan.id := "l3";
     Loan.fields :=
       {| Loan.shopId := Some "A"; Loan.customerName := None;
          Loan.amount := JStr "7"; Loan.timestamp := None;
          Loan.transactionId := None; Loan.receiptId := Some "R-7";
          Loan.status := None |} |}.

(** The loaded screen of shop A with the delete dialog opened on the first
    row. *)
Definition deletingFirstRow : world := run reliable loadedA [ClickDelete 0].

(** A loaded screen whose only customer has no name, phone or e-mail. *)
Definition anonymousOnly : state :=
  {| customers := [anonymous]; loading := false; showModal := false;
     editingCustomer := None; formData := Form.empty; error := "";
     success := ""; searchTerm := ""; showDeleteModal := false;
     customerToDelete := None; loans := []; loansLoading := false;
     showLoansModal := false; selectedCustomerLoans := [];
     selectedCustomerName := "" |}.

(** ** Sessions: requests and the render that sent them *)













(** The customers selected for editing and for deletion. *)
Definition selected (st : state) : list Customer.t :=
  option_list (editingCustomer st) ++ option_list (customerToDelete st).



(** ** Example sessions *)

(** Shop A loaded, both replies back. *)
Definition loadedSessionA : session :=
  session_run reliable (mountedSession reliable (Some "A") exampleStore)
              [Arrives 0; Arrives 0].


(** A customer is added under shop A, and the shop changes to B before the
    reply to the save is back. *)
Definition shopChangedWhileSaving : session :=
  session_run reliable loadedSessionA
              [Event ClickAdd; Event (InputChange FName "Zed"); Event Submit;
               Event (ShopChange (Some "B")); Arrives 0].

(** The form is opened on the first row of shop A, the shop changes to B
    with every reply back, and the form is submitted. *)
Definition heldOverEdit : session :=
  session_run reliable loadedSessionA
              [Event (ClickEdit 0); Event (ShopChange (Some "B"));
               Arrives 0; Arrives 0; Event Submit; Arrives 0; Arrives 0].

(** * Properties *)

(** ** Strings *)

Lemma append_cons (c : Ascii.ascii) (s t : string) :
  String c s +:+ t = String c (s +:+ t).
Proof. reflexivity. Qed.

Lemma prefix_spec (t s : string) :
  String.prefix t s = true ↔ ∃ post, s = t +:+ post.
Proof.
  revert s. induction t as [|a t IH]; intros s; simpl.
  - destruct s; simpl; split; eauto.
  - setoid_rewrite append_cons. destruct s as [|b s]; simpl.
    + split; [discriminate | intros [post Hp]; discriminate].
    + destruct (Ascii.ascii_dec a b) as [->|Hab].
      * rewrite IH. split; intros [post Hp]; exists post; congruence.
      * split; [discriminate | intros [post Hp]; congruence].
Qed.

Lemma includes_spec (s t : string) :
  includes s t = true ↔ substringOf t s.
Proof.
  unfold substringOf. induction s as [|c s IH].
  - change (includes "" t) with (String.prefix t "" || false).
    rewrite orb_false_r, prefix_spec. split.
    + intros [post Hp]. exists "", post. exact Hp.
    + intros (pre & post & Hp). destruct pre; [|discriminate].
      exists post. exact Hp.
  - change (includes (String c s) t)
      with (String.prefix t (String c s) || includes s t).
    rewrite orb_true_iff, prefix_spec, IH. split.
    + intros [[post Hp]|(pre & post & Hp)].
      * exists "", post. exact Hp.
      * exists (String c pre), post. rewrite append_cons. congruence.
    + intros (pre & post & Hp). destruct pre as [|c' pre].
      * left. eauto.
      * right. rewrite append_cons in Hp. exists pre, post. congruence.
Qed.

Lemma includes_false (s t : string) :
  includes s t = false → ¬ substringOf t s.
Proof. intros Hf Hs. apply includes_spec in Hs. congruence. Qed.

Lemma str_or_default (o : option string) : str_or o "" = default "" o.
Proof. by destruct o as [[|]|]. Qed.

Lemma opt_test_spec (o : option string) (p : string → bool) :
  opt_test o p = true ↔ ∃ s, o = Some s ∧ p s = true.
Proof.
  destruct o as [s|]; simpl.
  - split; [eauto | by intros (s' & [= <-] & Hp)].
  - split; [discriminate | by intros (s' & [=] & _)].
Qed.

(** ** Numbers *)

Lemma sameValueZero_refl x : sameValueZero x x.
Proof. by left. Qed.

(** Addition does not tell [+0] from [-0] in its arguments, except in the
    sign of a zero result. *)
Lemma js_add_sameValueZero a a' c c' :
  sameValueZero a a' → sameValueZero c c' →
  sameValueZero (js_add a c) (js_add a' c').
Proof.
  intros [->|(sa & sa' & -> & ->)] [->|(sc & sc' & -> & ->)].
  - by left.
  - destruct a' as [s|s| |s m e]; try (by left).
    right. destruct s, sc, sc'; simpl; eauto.
  - destruct c' as [s|s| |s m e]; try (by left).
    right. destruct s, sa, sa'; simpl; eauto.
  - right. destruct sa, sa', sc, sc'; simpl; eauto.
Qed.

(** ** Lists *)

Lemma Sorted_weaken {A} (R1 R2 : A → A → Prop) (l : list A) :
  (∀ a b, R1 a b → R2 a b) → Sorted R1 l → Sorted R2 l.
Proof.
  intros HR. induction 1 as [|x l Hl IH Hx]; constructor; [done|].
  destruct Hx; constructor. by apply HR.
Qed.

Lemma filter_length_lt {A} (f : A → bool) (l : list A) (x : A) :
  x ∈ l → f x = false → length (List.filter f l) < length l.
Proof.
  intros Hx Hf. induction Hx as [x l|x y l Hx IH]; simpl.
  - rewrite Hf. pose proof (List.filter_length_le f l). lia.
  - specialize (IH Hf). destruct (f y); simpl; lia.
Qed.

(** ** The sort *)

Lemma sort_insert_perm {A} (cmp : A → A → Z) x (l : list A) :
  sort_insert cmp x l ≡ₚ x :: l.
Proof.
  induction l as [|y l IH]; simpl; [done|].
  destruct (0 <? cmp x y)%Z; [|done].
  rewrite IH. apply Permutation_swap.
Qed.

Lemma js_sort_perm {A} (cmp : A → A → Z) (l : list A) :
  js_sort cmp l ≡ₚ l.
Proof.
  induction l as [|x l IH]; simpl; [done|].
  fold (js_sort cmp l). by rewrite sort_insert_perm, IH.
Qed.

Section Sorted.
Context {A : Type} (cmp : A → A → Z).
Hypothesis cmp_total : ∀ a b, (0 < cmp a b)%Z → (cmp b a ≤ 0)%Z.

Lemma sort_insert_HdRel z x l :
  inOrder cmp z x → HdRel (inOrder cmp) z l →
  HdRel (inOrder cmp) z (sort_insert cmp x l).
Proof.
  intros Hzx Hzl. destruct l as [|y l]; simpl.
  - by constructor.
  - destruct (0 <? cmp x y)%Z; constructor; [|done].
    by inversion Hzl.
Qed.

Lemma sort_insert_Sorted x l :
  Sorted (inOrder cmp) l → Sorted (inOrder cmp) (sort_insert cmp x l).
Proof.
  induction 1 as [|y l Hl IH Hy]; simpl.
  - repeat constructor.
  - destruct (0 <? cmp x y)%Z eqn:Hxy.
    + constructor; [done|]. apply sort_insert_HdRel; [|done].
      apply cmp_total. by apply Z.ltb_lt.
    + constructor; [by constructor|]. constructor.
      apply Z.ltb_ge in Hxy. exact Hxy.
Qed.

Lemma js_sort_Sorted l : Sorted (inOrder cmp) (js_sort cmp l).
Proof.
  induction l as [|x l IH]; simpl; [constructor|].
  by apply sort_insert_Sorted.
Qed.
End Sorted.

Section ViewProperties.
Context `{!Builtins}.

Lemma sortCustomers_Sorted (customersData : list Customer.t) :
  (∀ a b, (0 < localeCompare a b)%Z → (localeCompare b a ≤ 0)%Z) →
  Sorted byLowercaseName (sortCustomers customersData).
Proof.
  intros Htotal.
  apply Sorted_weaken with (inOrder compareByName).
  - intros a b. unfold inOrder, compareByName, byLowercaseName.
    by rewrite !str_or_default.
  - apply js_sort_Sorted. intros a b. apply Htotal.
Qed.

Lemma sortCustomers_perm (customersData : list Customer.t) :
  sortCustomers customersData ≡ₚ customersData.
Proof. apply js_sort_perm. Qed.

(** ** The search filter *)

Lemma matchesSearch_spec term c :
  matchesSearch term c = true ↔
  nameMatches term c ∨ phoneMatchesVerbatim term c ∨ emailMatches term c.
Proof.
  unfold matchesSearch, nameMatches, phoneMatchesVerbatim, emailMatches.
  rewrite !orb_true_iff, !opt_test_spec.
  setoid_rewrite includes_spec. tauto.
Qed.

(** C4, as the code has it.  Two search terms that differ in case only
    select the same customers, provided they occur in the same phone
    numbers: name and e-mail are compared in lowercase, the phone is
    compared with the term as typed. *)
Theorem search_ignores_case_of_term (customers : list Customer.t) (t t' : string) :
  toLowerCase t = toLowerCase t' →
  (∀ c, c ∈ customers →
        phoneMatchesVerbatim t c ↔ phoneMatchesVerbatim t' c) →
  filteredCustomers customers t = filteredCustomers customers t'.
Proof.
  intros Hcase Hphone. unfold filteredCustomers.
  apply List.filter_ext_in. intros c Hc.
  apply list_elem_of_In, Hphone in Hc.
  apply Bool.eq_true_iff_eq. rewrite !matchesSearch_spec.
  unfold nameMatches, emailMatches. rewrite Hcase. tauto.
Qed.

(** C9. A customer whose name, phone and e-mail are all missing passes no
    clause of the search filter, whatever the search term, the empty one
    included: it is counted in the total (the length of the customer list)
    and is not among the customers rendered. *)
Theorem customer_without_contact_fields_hidden
        (customers : list Customer.t) (term : string) (c : Customer.t) :
  Customer.name c = None → Customer.phone c = None → Customer.email c = None →
  c ∈ customers →
  (c ∉ filteredCustomers customers term) ∧
  (length (filteredCustomers customers term) < length customers).
Proof.
  intros Hn Hp He Hc.
  assert (matchesSearch term c = false) as Hm.
  { unfold matchesSearch. by rewrite Hn, Hp, He. }
  split.
  - unfold filteredCustomers. rewrite list_elem_of_In, List.filter_In.
    intros [_ Ht]. congruence.
  - by apply filter_length_lt with c.
Qed.

(** ** The loan badge *)

Lemma loanOf_spec customer (l : Loan.t) :
  loanOf customer l = true ↔
  sameNameIgnoringCase (Loan.customerName l) (Customer.name customer).
Proof.
  unfold loanOf, sameNameIgnoringCase.
  by rewrite String.eqb_eq, !str_or_default.
Qed.

Lemma num_or_amountOrZero (l : Loan.t) :
  sameValueZero (num_or (parseFloat (Loan.amount l)) js_zero) (amountOrZero l).
Proof.
  unfold num_or, amountOrZero, js_zero.
  destruct (parseFloat (Loan.amount l)) as [s|s| |s m e]; simpl;
    try (by left).
  right. eauto.
Qed.

Lemma loanTotal_sumLoans customer (loans : list Loan.t) acc acc' :
  sameValueZero acc acc' →
  sameValueZero
    (fold_left (λ s (l : Loan.t),
                  js_add s (num_or (parseFloat (Loan.amount l)) js_zero))
               (custLoans loans customer) acc)
    (sumLoans (Customer.name customer) acc' loans).
Proof.
  revert acc acc'. induction loans as [|l loans IH]; intros acc acc' Hacc.
  - exact Hacc.
  - unfold custLoans in *. simpl.
    destruct (loanOf customer l) eqn:Hl; case_decide as Hd.
    + simpl. apply IH, js_add_sameValueZero;
        [exact Hacc | apply num_or_amountOrZero].
    + apply loanOf_spec in Hl. contradiction.
    + apply loanOf_spec in Hd. congruence.
    + by apply IH.
Qed.

Lemma custLoans_length customer (loans : list Loan.t) :
  length (custLoans loans customer) = countLoans (Customer.name customer) loans.
Proof.
  unfold custLoans. induction loans as [|l loans IH]; simpl; [done|].
  destruct (loanOf customer l) eqn:Hl; case_decide as Hd; simpl.
  - by rewrite IH.
  - apply loanOf_spec in Hl. contradiction.
  - apply loanOf_spec in Hd. congruence.
  - exact IH.
Qed.

Lemma loanTotal_sumLoans_exact customer (loans : list Loan.t) acc :
  (∀ l : Loan.t, l ∈ custLoans loans customer →
                 parseFloat (Loan.amount l) ≠ S754_zero true) →
  fold_left (λ s (l : Loan.t),
               js_add s (num_or (parseFloat (Loan.amount l)) js_zero))
            (custLoans loans customer) acc
  = sumLoans (Customer.name customer) acc loans.
Proof.
  revert acc. induction loans as [|l loans IH]; intros acc Hnz; [done|].
  unfold custLoans in *. simpl in *.
  destruct (loanOf customer l) eqn:Hl; case_decide as Hd.
  - simpl. rewrite IH.
    + f_equal. f_equal. unfold num_or, amountOrZero, js_zero.
      specialize (Hnz l (list_elem_of_here _ _)).
      by destruct (parseFloat (Loan.amount l)) as [[]|s| |s m e].
    + intros l' Hl'. apply Hnz. by apply list_elem_of_further.
  - apply loanOf_spec in Hl. contradiction.
  - apply loanOf_spec in Hd. congruence.
  - by apply IH.
Qed.

(** C1. The loan summary of a customer counts exactly the loans whose
    customerName equals the customer's name once both are lowercased
    (missing names being the empty string), and its total is the sum, in
    list order, of the parsed amounts of those loans, an amount that does
    not parse to a number contributing zero.  The total is the same number
    as that sum: the two can differ in the sign of a zero only. *)
Theorem loanSummary_counts_and_sums (loans : list Loan.t) (customer : Customer.t) :
  (loanSummary loans customer).1 = countLoans (Customer.name customer) loans ∧
  sameValueZero (loanSummary loans customer).2
                (sumLoans (Customer.name customer) js_zero loans).
Proof.
  split; simpl.
  - apply custLoans_length.
  - apply loanTotal_sumLoans, sameValueZero_refl.
Qed.

(** Unless an amount of the customer's loans parses to [-0], the total is
    that sum exactly. *)
Lemma loanSummary_total_exact (loans : list Loan.t) (customer : Customer.t) :
  (∀ l : Loan.t, l ∈ custLoans loans customer →
                 parseFloat (Loan.amount l) ≠ S754_zero true) →
  (loanSummary loans customer).2
  = sumLoans (Customer.name customer) js_zero loans.
Proof. apply loanTotal_sumLoans_exact. Qed.

(** ** The loan-history table *)

Lemma statusColumn_lookup (selected : list Loan.t) i :
  statusColumn selected !! i = shownStatus <$> selected !! i.
Proof. apply list_lookup_fmap. Qed.

(** C8. In the loan-history table the status shown for a loan is
    'outstanding' when its status field is missing or empty, and the stored
    status otherwise. *)
Theorem shownStatus_default (selected : list Loan.t) (i : nat) (loan : Loan.t) :
  selected !! i = Some loan →
  statusColumn selected !! i = Some (shownStatus loan) ∧
  (Loan.status loan = None ∨ Loan.status loan = Some "" →
   shownStatus loan = "outstanding") ∧
  (∀ s, Loan.status loan = Some s → s ≠ "" → shownStatus loan = s).
Proof.
  intros Hi. split; [by rewrite statusColumn_lookup, Hi|].
  unfold shownStatus. split.
  - by intros [-> | ->].
  - intros s -> Hs. by destruct s.
Qed.

End ViewProperties.

(** ** Invariants of handlers *)

Section Keeps.
Context (I : world → Prop).

Lemma keeps_ret {A} (a : A) : keeps I (mret a).
Proof. by intros w Hw. Qed.

Lemma keeps_bind {A B} (m : M A) (f : A → M B) :
  keeps I m → (∀ a, keeps I (f a)) → keeps I (m ≫= f).
Proof.
  intros Hm Hf w Hw. specialize (Hm w Hw).
  unfold mbind, M_bind. destruct (m w) as [[a|e] w']; simpl in *.
  - by apply Hf.
  - done.
Qed.

(** A handler that starts by reading the state it closes over. *)
Lemma keeps_get_bind {B} (f : world → M B) :
  (∀ w, I w → I (exec (f w) w)) → keeps I (get ≫= f).
Proof. intros Hf w Hw. by apply Hf. Qed.

Lemma keeps_try_catch body handler :
  keeps I body → (∀ e, keeps I (handler e)) → keeps I (try_catch body handler).
Proof.
  intros Hb Hh w Hw. specialize (Hb w Hw).
  unfold try_catch. destruct (body w) as [[a|e] w']; simpl in *.
  - done.
  - by apply Hh.
Qed.

Lemma keeps_try_finally body after :
  keeps I body → keeps I after → keeps I (try_finally body after).
Proof.
  intros Hb Ha w Hw. specialize (Hb w Hw).
  unfold try_finally. destruct (body w) as [[a|e] w']; simpl in *.
  - by apply Ha.
  - specialize (Ha w' Hb). by destruct (after w') as [[a|e'] w''].
Qed.

Lemma keeps_exec {A} (m : M A) w : keeps I m → I w → I (exec m w).
Proof. intros Hm Hw. by apply Hm. Qed.
End Keeps.

(** Splits a handler along its binds, [try] blocks and branches. *)
Ltac keeps_structure :=
  repeat match goal with
  | |- keeps _ (mret _) => apply keeps_ret
  | |- keeps _ (_ ≫= _) => apply keeps_bind; [|intros ?]
  | |- keeps _ (try_catch _ _) => apply keeps_try_catch; [|intros ?]
  | |- keeps _ (try_finally _ _) => apply keeps_try_finally
  | |- keeps _ (if ?b then _ else _) => destruct b eqn:?
  | |- keeps _ (match ?x with _ => _ end) => destruct x eqn:?
  end.

(** A step that only touches state the invariant does not mention. *)
Ltac keeps_frame := by intros ? ?.

Lemma truthy_shop (o : option string) :
  str_truthy o = true → Some (str_or o "") = o.
Proof. by destruct o as [[|]|]. Qed.

(** ** Documents of a shop *)

Lemma customersOfShop_spec (s : string) (d : store) (c : Customer.t) :
  c ∈ customersOfShop s d →
  customerDocs d !! Customer.id c = Some (Customer.fields c) ∧
  Customer.shopId c = Some s.
Proof.
  unfold customersOfShop. rewrite list_elem_of_In, List.filter_In.
  rewrite <- list_elem_of_In, list_elem_of_fmap, bool_decide_eq_true.
  intros [([id doc] & -> & Hin) Hshop]. split; [|done].
  by apply elem_of_map_to_list in Hin.
Qed.



Section Rows.
Context `{!Builtins}.

Lemma rows_snapshots (st : state) (row : nat) (c : Customer.t) :
  rows st !! row = Some c → c ∈ snapshots st.
Proof.
  unfold rows, snapshots. intros Hrow%list_elem_of_lookup_2.
  destruct (loading st); [by apply not_elem_of_nil in Hrow|].
  unfold filteredCustomers in Hrow.
  apply list_elem_of_In, List.filter_In in Hrow as [Hc _].
  apply elem_of_app. left. by apply list_elem_of_In.
Qed.

End Rows.

(** ** Handlers between two awaits *)








Section Phases.
Context `{!Builtins} (E : env).










(** An event other than a change of shop, a submit or a confirmed delete
    sends nothing and holds on to no customer that was not in state. *)
Lemma handle_quiet (ev : event) w :
  (∀ s, ev ≠ ShopChange s) → ev ≠ Submit → ev ≠ ConfirmDelete →
  ∃ w', handle E ev w = (Ok tt, w') ∧
        activeShopId w' = activeShopId w ∧ outbox w' = outbox w ∧
        db w' = db w ∧ snapshots (ui w') ⊆ snapshots (ui w).
Proof.
  intros Hshop Hsubmit Hconfirm.
  assert (∀ row (h : Customer.t → M unit),
    (∀ c, c ∈ snapshots (ui w) →
          ∃ w', h c w = (Ok tt, w') ∧
                activeShopId w' = activeShopId w ∧ outbox w' = outbox w ∧
                db w' = db w ∧ snapshots (ui w') ⊆ snapshots (ui w)) →
    ∃ w', (w0 ← get; onRow row h) w = (Ok tt, w') ∧
          activeShopId w' = activeShopId w ∧ outbox w' = outbox w ∧
          db w' = db w ∧ snapshots (ui w') ⊆ snapshots (ui w)) as Hrow.
  { intros row h Hh. unfold onRow, get, mbind, M_bind, mret, M_ret.
    destruct (rows (ui w) !! row) as [c|] eqn:Hc; [|by exists w].
    apply Hh. by eapply rows_snapshots. }
  destruct ev; try done; try (by destruct (Hshop shop)); unfold handle.
  - unfold handleInputChange, setFormData.
    unfold modify, get, mbind, M_bind, mret, M_ret.
    destruct (showModal (ui w)); by eexists.
  - unfold resetForm, setFormData, setEditingCustomer, setShowModal.
    unfold modify, get, mbind, M_bind, mret, M_ret. simpl.
    eexists. split_and!; [reflexivity|done..|].
    unfold snapshots. simpl. intros c. rewrite !elem_of_app.
    intros [Hc|Hc]; [by left|]. right. by right.
  - apply Hrow. intros c Hc. unfold handleEdit, setFormData,
      setEditingCustomer, setShowModal.
    unfold modify, mbind, M_bind, mret, M_ret. simpl.
    eexists. split_and!; [reflexivity|done..|].
    intros c'. unfold snapshots at 1. simpl.
    rewrite elem_of_app, elem_of_cons.
    intros [Hc'|[->|Hc']]; [|done|]; unfold snapshots; rewrite !elem_of_app;
      [by left|right; by right].
  - apply Hrow. intros c Hc. unfold handleDelete, setCustomerToDelete,
      setShowDeleteModal.
    unfold modify, mbind, M_bind, mret, M_ret. simpl.
    eexists. split_and!; [reflexivity|done..|].
    intros c'. unfold snapshots at 1. simpl. rewrite !elem_of_app.
    intros [Hc'|[Hc'|Hc']];
      [unfold snapshots; rewrite !elem_of_app; by left
      |unfold snapshots; rewrite !elem_of_app; right; by left|].
    by apply list_elem_of_singleton in Hc' as ->.
  - apply Hrow. intros c Hc. unfold viewLoans, setSelectedCustomerLoans,
      setSelectedCustomerName, setShowLoansModal.
    unfold modify, get, mbind, M_bind, mret, M_ret. simpl. by eexists.
  - unfold handleCloseModal, resetForm, setFormData, setEditingCustomer,
      setShowModal.
    unfold modify, get, mbind, M_bind, mret, M_ret. simpl.
    eexists. split_and!; [reflexivity|done..|].
    unfold snapshots. simpl. intros c. rewrite !elem_of_app.
    intros [Hc|Hc]; [by left|]. right. by right.
  - by eexists.
  - by eexists.
  - by eexists.
  - by eexists.
  - by eexists.
  - unfold setSuccess, modify, get, mbind, M_bind, mret, M_ret.
    destruct (timers w); by eexists.
Qed.


End Phases.

(** ** Requests and the shop their handler closed over *)






Section Sessions.
Context `{!Builtins} (E : env).




(** ** A screen settled for its shop addresses documents of that shop *)












End Sessions.

(** ** The schedule in which every reply is back before the next event *)

Section Schedule.
Context `{!Builtins} (E : env).

Ltac unfold_async :=
  unfold session_run, fold_left, act, started, resumed, awaited,
    effects_sent, handleSubmit_sent, handleSubmit_resumed,
    confirmDelete_sent, confirmDelete_resumed,
    fetchCustomers_sent, fetchCustomers_resumed,
    fetchLoans_sent, fetchLoans_resumed,
    step, exec, handle, effects, handleSubmit, confirmDelete,
    fetchCustomers, fetchLoans,
    getDocsCustomers, getDocsLoans, addDoc, updateDoc, deleteDoc, resetForm,
    newDate, consoleError, setTimeout,
    setCustomers, setLoading, setLoans, setLoansLoading, setError,
    setSuccess, setShowModal, setShowDeleteModal, setFormData,
    setEditingCustomer, setCustomerToDelete;
  unfold promise, await, try_catching, try_catch, try_finally, modify, get,
    mbind, M_bind, mret, M_ret.

Ltac settle_requests :=
  repeat (simpl; rewrite ?length_app; simpl length;
          repeat match goal with
                 | H : str_truthy ?x = _ |- context [str_truthy ?x] =>
                     rewrite H
                 | H : fails E ?n = _ |- context [fails E ?n] => rewrite H
                 | H : customerDocs ?d !! ?i = _
                   |- context [customerDocs ?d !! ?i] => rewrite H
                 end;
          try match goal with
          | |- context [fails E ?n] => destruct (fails E n) eqn:?
          | |- context [match customerDocs ?d !! ?i with _ => _ end] =>
              destruct (customerDocs d !! i) eqn:?
          end).

Lemma step_is_a_schedule (w : world) (ev : event) :
  session_run E {| screen := w; inflight := [] |}
              [Event ev; Arrives 0; Arrives 0]
  = {| screen := step E w ev; inflight := [] |}.
Proof.
  assert ((∃ s, ev = ShopChange s) ∨ ev = Submit ∨ ev = ConfirmDelete ∨
          ((∀ s, ev ≠ ShopChange s) ∧ ev ≠ Submit ∧ ev ≠ ConfirmDelete))
    as [[s ->]|[->|[->|(Hshop & Hsubmit & Hconfirm)]]]
    by (destruct ev; first [left; by eauto | right; left; done
                           | right; right; left; done
                           | right; right; right; done]).
  - unfold_async. simpl.
    destruct (decide (s = activeShopId w)); simpl; [reflexivity|].
    destruct (str_truthy s) eqn:Ht; unfold send; settle_requests;
      reflexivity.
  - unfold_async. simpl.
    destruct (showModal (ui w)); simpl; [|reflexivity].
    destruct (String.eqb _ _); simpl; [reflexivity|].
    destruct (str_truthy (activeShopId w)) eqn:Ht; simpl; [|reflexivity].
    destruct (editingCustomer (ui w)); unfold send; settle_requests;
      reflexivity.
  - unfold_async. simpl.
    destruct (showDeleteModal (ui w)); simpl; [|reflexivity].
    destruct (customerToDelete (ui w)); simpl; [|reflexivity].
    destruct (str_truthy (activeShopId w)) eqn:Ht; unfold send;
      settle_requests; reflexivity.
  - destruct (handle_quiet E ev w Hshop Hsubmit Hconfirm) as (w' & Hrun & _).
    unfold session_run, step, exec. simpl.
    replace (started E ev w) with (Ok ([] : list reply), w').
    { by rewrite Hrun. }
    destruct ev; try done; try (by destruct (Hshop shop));
      unfold started, get, mbind, M_bind, mret, M_ret; by rewrite Hrun.
Qed.

Lemma mounted_is_a_schedule (shop : option string) (d : store) :
  session_run E (mountedSession E shop d) [Arrives 0; Arrives 0]
  = {| screen := mounted E shop d; inflight := [] |}.
Proof.
  unfold mountedSession, mounted. unfold_async. simpl.
  destruct (str_truthy shop) eqn:Ht; unfold send; settle_requests;
    reflexivity.
Qed.

Lemma run_is_a_schedule (w : world) (evs : list event) :
  session_run E {| screen := w; inflight := [] |}
              (ev ← evs; [Event ev; Arrives 0; Arrives 0])
  = {| screen := run E w evs; inflight := [] |}.
Proof.
  revert w. induction evs as [|ev evs IH]; intros w; [done|].
  change (session_run E ?s (ev ← ev :: evs; [Event ev; Arrives 0; Arrives 0]))
    with (session_run E (session_run E s [Event ev; Arrives 0; Arrives 0])
                      (ev ← evs; [Event ev; Arrives 0; Arrives 0])).
  by rewrite step_is_a_schedule, IH.
Qed.




End Schedule.

(** ** Saving, deleting and loading, case by case *)

(** Unfolds the handlers down to the world they compute. *)
Ltac unfold_handlers :=
  unfold exec, handleSubmit, confirmDelete, fetchCustomers, fetchLoans,
    resetForm, getDocsCustomers, getDocsLoans, addDoc, updateDoc, deleteDoc,
    send, newDate, consoleError, setTimeout, try_catch, try_finally,
    setCustomers, setLoading, setShowModal, setEditingCustomer, setFormData,
    setError, setSuccess, setShowDeleteModal, setCustomerToDelete, setLoans,
    setLoansLoading, get, modify, with_ui, mbind, mret, M_bind, M_ret.

Section Saving.
Context `{!Builtins} (E : env).

Lemma handleSubmit_blank w :
  trim (Form.name (formData (ui w))) = "" →
  let w' := exec (handleSubmit E) w in
  error (ui w') = "Customer name is required" ∧
  outbox w' = outbox w ∧ db w' = db w.
Proof. intros Hb. unfold_handlers. simpl. by rewrite Hb. Qed.

Lemma handleSubmit_no_shop w :
  str_truthy (activeShopId w) = false →
  let w' := exec (handleSubmit E) w in
  outbox w' = outbox w ∧ db w' = db w ∧ ticks w' = ticks w ∧
  (trim (Form.name (formData (ui w))) ≠ "" →
   error (ui w') = "Shop ID is missing").
Proof.
  intros Hs. unfold_handlers. simpl. rewrite Hs. simpl.
  destruct (trim (Form.name (formData (ui w))) =? "") eqn:Hb; simpl.
  - apply String.eqb_eq in Hb. by rewrite Hb.
  - done.
Qed.

(** The request a save sends first, and what is left behind. *)
Lemma handleSubmit_save w :
  trim (Form.name (formData (ui w))) ≠ "" →
  str_truthy (activeShopId w) = true →
  let shop := str_or (activeShopId w) "" in
  let wr :=
    match editingCustomer (ui w) with
    | None =>
        Add (customerData (formData (ui w)) shop
                          (Some (now E (ticks w))) (now E (S (ticks w))))
    | Some c =>
        Update (Customer.id c)
               (customerData (formData (ui w)) shop
                             (Customer.createdAt c) (now E (ticks w)))
    end in
  let f :=
    match fails E (length (outbox w)) with
    | Some _ => true
    | None => is_thrown (answer wr (db w)).1
    end in
  let w' := exec (handleSubmit E) w in
  ∃ rest,
    sentBy (handleSubmit E) w =
      {| by_shop := activeShopId w; req := wr;
         target := target_of wr (db w); failed := f |} :: rest ∧
    Forall (λ e, isWrite (req e) = false) rest ∧
    db w' = (if f then db w else (answer wr (db w)).2) ∧
    (error (ui w') = "" ∨ error (ui w') = "Failed to load customers" ∨
     ∃ e, error (ui w') = "Failed to save customer: " +:+ e).
Proof.
  intros Hb%String.eqb_neq Hs. unfold sentBy. unfold_handlers. simpl.
  rewrite Hb, Hs. simpl.
  destruct (editingCustomer (ui w)) as [c|]; simpl.
  - destruct (fails E (length (outbox w))) as [m|] eqn:Hf; simpl.
    + rewrite drop_app_length. eexists.
      split_and!; [reflexivity|constructor|reflexivity|eauto].
    + destruct (customerDocs (db w) !! Customer.id c) eqn:Hl; simpl.
      * rewrite Hs. simpl.
        destruct (fails E (length (outbox w ++ _))); simpl;
          rewrite <- app_assoc, drop_app_length; eexists;
          (split_and!; [reflexivity|repeat constructor|reflexivity|eauto]).
      * rewrite drop_app_length. eexists.
        split_and!; [reflexivity|constructor|reflexivity|eauto].
  - destruct (fails E (length (outbox w))) as [m|] eqn:Hf; simpl.
    + rewrite drop_app_length. eexists.
      split_and!; [reflexivity|constructor|reflexivity|eauto].
    + rewrite Hs. simpl.
      destruct (fails E (length (outbox w ++ _))); simpl;
        rewrite <- app_assoc, drop_app_length; eexists;
        (split_and!; [reflexivity|repeat constructor|reflexivity|eauto]).
Qed.

(** C6, as the code has it.  A form submission is rejected with 'Customer
    name is required' exactly when the trimmed name is empty, and then
    nothing is sent to the store and the stored documents are unchanged.
    No other field is validated: with a name and an active shop the create
    or update is sent, carrying the form fields as they are. *)
Theorem submit_validates_name_only (w : world) :
  let w' := exec (handleSubmit E) w in
  (trim (Form.name (formData (ui w))) = "" →
   error (ui w') = "Customer name is required" ∧
   sentBy (handleSubmit E) w = [] ∧ db w' = db w) ∧
  (error (ui w') = "Customer name is required" →
   trim (Form.name (formData (ui w))) = "") ∧
  (trim (Form.name (formData (ui w))) ≠ "" →
   str_truthy (activeShopId w) = true →
   ∃ wr rest createdAt updatedAt,
     sentBy (handleSubmit E) w = wr :: rest ∧
     isWrite (req wr) = true ∧
     Forall (λ e, isWrite (req e) = false) rest ∧
     let data := customerData (formData (ui w)) (str_or (activeShopId w) "")
                              createdAt updatedAt in
     req wr = Add data ∨ ∃ id, req wr = Update id data).
Proof.
  split_and!.
  - intros Hb. destruct (handleSubmit_blank w Hb) as (He & Ho & Hd).
    split_and!; [done| |done]. unfold sentBy. rewrite Ho. apply drop_all.
  - intros He.
    destruct (decide (trim (Form.name (formData (ui w))) = "")) as [|Hb];
      [done|exfalso].
    destruct (str_truthy (activeShopId w)) eqn:Hs.
    + destruct (handleSubmit_save w Hb Hs) as (rest & _ & _ & _ & Herr).
      simpl in *. rewrite He in Herr.
      by destruct Herr as [?|[?|[e ?]]].
    + destruct (handleSubmit_no_shop w Hs) as (_ & _ & _ & Herr).
      specialize (Herr Hb). simpl in *. congruence.
  - intros Hb Hs.
    destruct (handleSubmit_save w Hb Hs) as (rest & Hsent & Hrest & _).
    destruct (editingCustomer (ui w)) as [c|];
      eexists _, rest, _, _;
      (split; [exact Hsent|]); (split; [done|]); (split; [done|]);
      simpl; eauto.
Qed.

(** C7. Every save stamps the clock reading taken for it as the update
    timestamp.  A create stamps a clock reading as the creation timestamp;
    an update of an existing customer writes back the creation timestamp of
    the customer being edited.  When the request succeeds the document is
    stored with these stamps and no other document changes. *)
Theorem save_stamps_timestamps (w : world) :
  trim (Form.name (formData (ui w))) ≠ "" →
  str_truthy (activeShopId w) = true →
  let w' := exec (handleSubmit E) w in
  ∃ wr rest data,
    sentBy (handleSubmit E) w = wr :: rest ∧
    Forall (λ e, isWrite (req e) = false) rest ∧
    match editingCustomer (ui w) with
    | None =>
        req wr = Add data ∧
        Customer.createdAt data = Some (now E (ticks w)) ∧
        Customer.updatedAt data = Some (now E (S (ticks w)))
    | Some c =>
        req wr = Update (Customer.id c) data ∧
        Customer.createdAt data = Customer.createdAt c ∧
        Customer.updatedAt data = Some (now E (ticks w))
    end ∧
    (failed wr = false →
     ∃ id, customerDocs (db w') !! id = Some data ∧
           ∀ id', id' ≠ id →
                  customerDocs (db w') !! id' = customerDocs (db w) !! id').
Proof.
  intros Hb Hs.
  destruct (handleSubmit_save w Hb Hs) as (rest & Hsent & Hrest & Hdb & _).
  destruct (editingCustomer (ui w)) as [c|].
  - eexists _, rest, _.
    split_and!; [exact Hsent|done|reflexivity..|].
    cbn [failed]. intros Hf. exists (Customer.id c).
    destruct (fails E (length (outbox w))); [done|].
    cbn [answer] in Hf, Hdb.
    destruct (customerDocs (db w) !! Customer.id c) eqn:Hl; [|done].
    cbn in Hdb. rewrite Hdb. cbn. split; [apply lookup_insert_eq|].
    intros id' Hne. by apply lookup_insert_ne.
  - eexists _, rest, _.
    split_and!; [exact Hsent|done|reflexivity..|].
    cbn [failed]. intros Hf.
    exists (fresh (dom (customerDocs (db w)))).
    destruct (fails E (length (outbox w))); [done|].
    cbn in Hdb. rewrite Hdb. cbn. split; [apply lookup_insert_eq|].
    intros id' Hne. by apply lookup_insert_ne.
Qed.

(** C10, as the code has it.  While the active shop identifier is absent a
    form submission returns before the customer document is built: the
    clock is not read, nothing is sent to the store and the stored
    documents are unchanged.  The error set is 'Shop ID is missing' when
    the name is not blank, and the one of the name check, which comes
    first, when it is. *)
Theorem submit_without_shop (w : world) :
  str_truthy (activeShopId w) = false →
  let w' := exec (handleSubmit E) w in
  sentBy (handleSubmit E) w = [] ∧ db w' = db w ∧ ticks w' = ticks w ∧
  (trim (Form.name (formData (ui w))) ≠ "" →
   error (ui w') = "Shop ID is missing") ∧
  (trim (Form.name (formData (ui w))) = "" →
   error (ui w') = "Customer name is required").
Proof.
  intros Hs. destruct (handleSubmit_no_shop w Hs) as (Ho & Hd & Ht & He).
  split_and!; [|done..|].
  - unfold sentBy. rewrite Ho. apply drop_all.
  - intros Hb. by destruct (handleSubmit_blank w Hb) as (Herr & _).
Qed.

(** *** Failures *)

Lemma fetchCustomers_failure_surfaced w message :
  str_truthy (activeShopId w) = true →
  fails E (length (outbox w)) = Some message →
  let w' := exec (fetchCustomers E) w in
  console w' = console w ++ ["Error fetching customers:" +:+ " " +:+ message] ∧
  errorBanner (ui w') = Some "Failed to load customers".
Proof.
  intros Hs Hf. unfold_handlers. simpl. rewrite Hs. simpl. by rewrite Hf.
Qed.

Lemma handleSubmit_failure_surfaced w message :
  trim (Form.name (formData (ui w))) ≠ "" →
  str_truthy (activeShopId w) = true →
  fails E (length (outbox w)) = Some message →
  let w' := exec (handleSubmit E) w in
  console w' = console w ++ ["Error saving customer:" +:+ " " +:+ message] ∧
  error (ui w') = "Failed to save customer: " +:+ message.
Proof.
  intros Hb%String.eqb_neq Hs Hf. unfold_handlers. simpl.
  rewrite Hb, Hs. simpl.
  destruct (editingCustomer (ui w)); simpl; by rewrite Hf.
Qed.

Lemma confirmDelete_failure_surfaced w c message :
  customerToDelete (ui w) = Some c →
  fails E (length (outbox w)) = Some message →
  let w' := exec (confirmDelete E) w in
  console w' = console w ++ ["Error deleting customer:" +:+ " " +:+ message] ∧
  error (ui w') = "Failed to delete customer: " +:+ message.
Proof. intros Hc Hf. unfold_handlers. simpl. by rewrite Hc, Hf. Qed.

Lemma dismissError_clears w :
  errorBanner (ui (step E w DismissError)) = None.
Proof. reflexivity. Qed.

(** C3, where the code departs from it.  A failure while fetching the loans
    is caught and logged, but the error state is left as it was: no banner
    appears for it. *)
Theorem fetchLoans_failure_not_surfaced (w : world) (message : string) :
  str_truthy (activeShopId w) = true →
  fails E (length (outbox w)) = Some message →
  let w' := exec (fetchLoans E) w in
  console w' =
    console w ++ ["Error fetching customer loans:" +:+ " " +:+ message] ∧
  errorBanner (ui w') = errorBanner (ui w) ∧
  loans (ui w') = loans (ui w).
Proof.
  intros Hs Hf. unfold_handlers. simpl. rewrite Hs. simpl. by rewrite Hf.
Qed.

End Saving.

(** ** Loading the list *)

Section Loading.
Context `{!Builtins} (E : env).

Lemma fetchCustomers_loaded w :
  str_truthy (activeShopId w) = true →
  fails E (length (outbox w)) = None →
  customers (ui (exec (fetchCustomers E) w)) =
  sortCustomers (customersOfShop (str_or (activeShopId w) "") (db w)).
Proof.
  intros Hs Hf. unfold_handlers. simpl. rewrite Hs. simpl. by rewrite Hf.
Qed.

(** C5, as the code has it.  The list held in state after a successful
    load is the fetched list sorted in non-decreasing order of the
    lowercased names (a missing name being the empty string), and a
    customer matches the search term exactly when the lowercased term
    occurs in its lowercased name, the term as typed occurs in its phone,
    or the lowercased term occurs in its lowercased e-mail. *)
Theorem loaded_list_sorted_and_search
        (w : world) (term : string) (c : Customer.t) :
  (∀ a b, (0 < localeCompare a b)%Z → (localeCompare b a ≤ 0)%Z) →
  str_truthy (activeShopId w) = true →
  fails E (length (outbox w)) = None →
  let loaded := customers (ui (exec (fetchCustomers E) w)) in
  Sorted byLowercaseName loaded ∧
  loaded ≡ₚ customersOfShop (str_or (activeShopId w) "") (db w) ∧
  (matchesSearch term c = true ↔
   nameMatches term c ∨ phoneMatchesVerbatim term c ∨ emailMatches term c).
Proof.
  intros Htotal Hs Hf. simpl. rewrite (fetchCustomers_loaded w Hs Hf).
  split_and!.
  - by apply sortCustomers_Sorted.
  - apply sortCustomers_perm.
  - apply matchesSearch_spec.
Qed.

End Loading.

(** * The properties on the example data *)

Lemma ascii_localeCompare_total (a b : string) :
  (0 < ascii_localeCompare a b)%Z → (ascii_localeCompare b a ≤ 0)%Z.
Proof.
  unfold ascii_localeCompare. rewrite (String.compare_antisym a b).
  by destruct (String.compare b a).
Qed.

(** C4 on two customers: 'BOB' and 'bob' select the same rows. *)
Lemma search_ignores_case_witness :
  toLowerCase "BOB" = toLowerCase "bob" ∧
  filteredCustomers [bob; al] "BOB" = filteredCustomers [bob; al] "bob".
Proof.
  split; [reflexivity|].
  apply search_ignores_case_of_term; [reflexivity|].
  intros c Hc. apply list_elem_of_In in Hc.
  destruct Hc as [<-|[<-|[]]];
    split; intros (p & [= <-] & Hs); apply includes_spec in Hs;
    vm_compute in Hs; discriminate Hs.
Defined.

(** C4 fails on the phone: 'X' and 'x' differ in case only, and only 'X'
    finds the customer whose phone is '0300X'. *)
Lemma search_phone_is_case_sensitive :
  toLowerCase "X" = toLowerCase "x" ∧
  filteredCustomers [bobExt] "X" = [bobExt] ∧
  filteredCustomers [bobExt] "x" = [].
Proof. by vm_compute. Qed.

(** C5 on the example store. *)
Lemma loaded_list_witness :
  let w := initialWorld (Some "A") exampleStore in
  let loaded := customers (ui (exec (fetchCustomers reliable) w)) in
  Sorted byLowercaseName loaded ∧
  loaded ≡ₚ customersOfShop (str_or (activeShopId w) "") (db w) ∧
  (matchesSearch "bo" bob = true ↔
   nameMatches "bo" bob ∨ phoneMatchesVerbatim "bo" bob ∨
   emailMatches "bo" bob).
Proof.
  apply (loaded_list_sorted_and_search
           reliable (initialWorld (Some "A") exampleStore) "bo" bob);
    [apply ascii_localeCompare_total | reflexivity | reflexivity].
Defined.

(** C5 fails on the phone: the term 'X' matches the phone '0300X' as
    typed, while its lowercase 'x' occurs in no field. *)
Lemma search_phone_uses_term_as_typed :
  matchesSearch "X" bobExt = true ∧
  ¬ (nameMatches "X" bobExt ∨ phoneMatchesLowered "X" bobExt ∨
     emailMatches "X" bobExt).
Proof.
  split; [reflexivity|].
  intros [(n & [= <-] & Hs)|[(p & [= <-] & Hs)|(e & [=] & _)]];
    apply includes_spec in Hs; vm_compute in Hs; discriminate Hs.
Qed.

(** C6 on a form whose name holds only blanks, and on a form with a name
    and nothing else filled in. *)
Lemma submit_validates_witness :
  (error (ui (exec (handleSubmit reliable) blankName))
     = "Customer name is required" ∧
   sentBy (handleSubmit reliable) blankName = [] ∧
   db (exec (handleSubmit reliable) blankName) = db blankName) ∧
  (∃ wr rest, sentBy (handleSubmit reliable) addingZed = wr :: rest ∧
              isWrite (req wr) = true).
Proof.
  split.
  - apply (proj1 (submit_validates_name_only reliable blankName)).
    vm_compute. reflexivity.
  - destruct (proj2 (proj2 (submit_validates_name_only reliable addingZed)))
      as (wr & rest & createdAt & updatedAt & Hsent & Hwrite & _);
      [vm_compute; discriminate | vm_compute; reflexivity |].
    by exists wr, rest.
Defined.

(** C6 fails without an active shop: the name is not blank, yet nothing
    is sent and the submission ends in an error. *)
Lemma submit_with_name_rejected_without_shop :
  trim (Form.name (formData (ui noShopZed))) = "Zed" ∧
  sentBy (handleSubmit reliable) noShopZed = [] ∧
  db (exec (handleSubmit reliable) noShopZed) = db noShopZed ∧
  error (ui (exec (handleSubmit reliable) noShopZed)) = "Shop ID is missing".
Proof. by vm_compute. Qed.

(** C7 on an edit of the first row: the update carries the creation
    timestamp of the customer and the clock reading. *)
Lemma save_stamps_witness :
  ∃ wr rest data,
    sentBy (handleSubmit reliable) editingFirstRow = wr :: rest ∧
    req wr = Update "c3" data ∧
    Customer.createdAt data = Some 5%Z ∧
    Customer.updatedAt data = Some 1000%Z.
Proof.
  destruct (save_stamps_timestamps reliable editingFirstRow)
    as (wr & rest & data & Hsent & _ & Hstamp & _);
    [vm_compute; discriminate | vm_compute; reflexivity |].
  exists wr, rest, data. split; [exact Hsent|].
  vm_compute in Hstamp. exact Hstamp.
Defined.

(** C8 on two loans, one without a status. *)
Lemma shownStatus_witness :
  statusColumn [openLoan; paidLoan] !! 0 = Some "outstanding" ∧
  statusColumn [openLoan; paidLoan] !! 1 = Some "paid".
Proof.
  destruct (shownStatus_default [openLoan; paidLoan] 0 openLoan eq_refl)
    as (H0 & Hdefault & _).
  destruct (shownStatus_default [openLoan; paidLoan] 1 paidLoan eq_refl)
    as (H1 & _ & Hstored).
  split.
  - rewrite H0, (Hdefault (or_introl eq_refl)). reflexivity.
  - rewrite H1, (Hstored "paid" eq_refl); [reflexivity|discriminate].
Defined.

(** C9 on a list holding a customer without name, phone and e-mail. *)
Lemma hidden_customer_witness :
  (anonymous ∉ filteredCustomers [bob; anonymous] "") ∧
  (length (filteredCustomers [bob; anonymous] "") < length [bob; anonymous]).
Proof.
  apply (customer_without_contact_fields_hidden [bob; anonymous] "" anonymous);
    [reflexivity..|].
  apply list_elem_of_In. right. left. reflexivity.
Defined.

(** C10 on a screen without a shop and a form with a name. *)
Lemma submit_without_shop_witness :
  sentBy (handleSubmit reliable) noShopZed = [] ∧
  db (exec (handleSubmit reliable) noShopZed) = db noShopZed ∧
  error (ui (exec (handleSubmit reliable) noShopZed)) = "Shop ID is missing".
Proof.
  destruct (submit_without_shop reliable noShopZed)
    as (Hsent & Hdb & _ & Herr & _);
    [vm_compute; reflexivity|].
  split_and!; [exact Hsent | exact Hdb |].
  apply Herr. vm_compute. discriminate.
Defined.

(** C10 fails on a blank name: without a shop the error set is the one of
    the name check, which comes first. *)
Lemma submit_without_shop_blank_name :
  str_truthy (activeShopId noShopBlankName) = false ∧
  error (ui (exec (handleSubmit reliable) noShopBlankName))
    = "Customer name is required" ∧
  error (ui (exec (handleSubmit reliable) noShopBlankName))
    ≠ "Shop ID is missing".
Proof. by vm_compute. Qed.

(** C3 on the loaded screen of shop A when the request fails. *)
Lemma fetchLoans_failure_witness :
  console (exec (fetchLoans (offlineAt 2)) loadedA)
    = console loadedA ++ ["Error fetching customer loans: offline"] ∧
  errorBanner (ui (exec (fetchLoans (offlineAt 2)) loadedA)) = None.
Proof.
  destruct (fetchLoans_failure_not_surfaced (offlineAt 2) loadedA "offline")
    as (Hconsole & Hbanner & _); [vm_compute; reflexivity..|].
  split; [exact Hconsole | by rewrite Hbanner].
Defined.



(** The stale delete is a session of the screen, the one in which every
    reply is back before the next event. *)
Example staleDelete_is_a_session :
  session_run (offlineAt 2)
              (mountedSession (offlineAt 2) (Some "A") exampleStore)
              ([Arrives 0; Arrives 0] ++
               (ev ← [ShopChange (Some "B"); ClickDelete 0; ConfirmDelete];
                [Event ev; Arrives 0; Arrives 0]))
  = {| screen := staleDelete; inflight := [] |}.
Proof. vm_compute. reflexivity. Qed.

(** The shop changes while a save is awaited: the reload that follows the
    save is sent while shop B is active, and asks for the customers of
    shop A. *)
Example reload_reads_shop_left_behind :
  activeShopId (screen shopChangedWhileSaving) = Some "B" ∧
  outbox (screen shopChangedWhileSaving) !! 5 =
    Some {| by_shop := Some "B"; req := Query Customers "A";
            target := None; failed := false |}.
Proof. by vm_compute. Qed.

(** A form opened under shop A and submitted under shop B: no request
    fails, and the document of shop A is now one of shop B. *)
Example held_over_edit_moves_document :
  failed <$> outbox (screen heldOverEdit)
    = [false; false; false; false; false; false] ∧
  Customer.shopId <$> customerDocs exampleStore !! "c3" = Some (Some "A") ∧
  Customer.shopId <$> customerDocs (db (screen heldOverEdit)) !! "c3"
    = Some (Some "B").
Proof. by vm_compute. Qed.

(** * Further properties *)

(** ** The form *)

(** X1. A change event writes the typed value into the field it names and
    into no other field, and touches nothing but the form. *)
Theorem handleInputChange_sets_one_field (f : field) (value : string) (w : world) :
  let w' := exec (handleInputChange f value) w in
  (∀ g, getField g (formData (ui w')) =
        if decide (g = f) then value else getField g (formData (ui w))) ∧
  editingCustomer (ui w') = editingCustomer (ui w) ∧
  customers (ui w') = customers (ui w) ∧
  db w' = db w ∧ outbox w' = outbox w.
Proof.
  simpl. split_and!; try reflexivity.
  intros g. unfold_handlers. simpl.
  destruct (formData (ui w)) as [n p e a c o]. by destruct f, g.
Qed.

Section FormProperties.
Context `{!Builtins} (E : env).

(** X2. Opening the editor on a customer and saving without a change sends
    an update of that customer's document in which every text field that
    was missing is the empty string and every other one is as it was; the
    creation timestamp is the customer's and the shop is the active one. *)
Theorem edit_then_save_fills_missing_fields (w : world) (c : Customer.t) :
  trim (default "" (Customer.name c)) ≠ "" →
  str_truthy (activeShopId w) = true →
  let w1 := exec (handleEdit c) w in
  showModal (ui w1) = true ∧
  ∃ wr rest data,
    sentBy (handleSubmit E) w1 = wr :: rest ∧
    req wr = Update (Customer.id c) data ∧
    Customer.name data = Some (default "" (Customer.name c)) ∧
    Customer.phone data = Some (default "" (Customer.phone c)) ∧
    Customer.email data = Some (default "" (Customer.email c)) ∧
    Customer.address data = Some (default "" (Customer.address c)) ∧
    Customer.city data = Some (default "" (Customer.city c)) ∧
    Customer.notes data = Some (default "" (Customer.notes c)) ∧
    Customer.createdAt data = Customer.createdAt c ∧
    Customer.shopId data = activeShopId w.
Proof.
  intros Hname Hshop. simpl. split; [reflexivity|].
  rewrite <- str_or_default in Hname.
  destruct (handleSubmit_save E (exec (handleEdit c) w) Hname Hshop)
    as (rest & Hsent & _).
  eexists _, rest, _. split; [exact Hsent|].
  split; [reflexivity|]. simpl.
  rewrite <- !str_or_default. split_and!; try reflexivity.
  by apply truthy_shop.
Qed.

(** X3. When the request of a save fails, the editor stays as it is for
    another try: the dialog stays open, the form keeps what was typed, the
    customer being edited stays selected, the list and the store are
    unchanged, no success message is set and no timer is started. *)
Theorem failed_save_keeps_form (w : world) (message : string) :
  trim (Form.name (formData (ui w))) ≠ "" →
  str_truthy (activeShopId w) = true →
  fails E (length (outbox w)) = Some message →
  let w' := exec (handleSubmit E) w in
  showModal (ui w') = showModal (ui w) ∧
  formData (ui w') = formData (ui w) ∧
  editingCustomer (ui w') = editingCustomer (ui w) ∧
  customers (ui w') = customers (ui w) ∧
  success (ui w') = "" ∧
  timers w' = timers w ∧
  db w' = db w.
Proof.
  intros Hb%String.eqb_neq Hs Hf. unfold_handlers. simpl.
  rewrite Hb, Hs. simpl.
  destruct (editingCustomer (ui w)); simpl; by rewrite Hf.
Qed.

(** X4. When the request of a save succeeds, the dialog is closed, the form
    is emptied, no customer stays selected for editing, the success
    message says whether a customer was added or updated, and one timer is
    started to clear it.  This holds whether or not the reload that
    follows succeeds. *)
Theorem successful_save_resets_form (w : world) :
  trim (Form.name (formData (ui w))) ≠ "" →
  str_truthy (activeShopId w) = true →
  fails E (length (outbox w)) = None →
  (∀ c, editingCustomer (ui w) = Some c →
        is_Some (customerDocs (db w) !! Customer.id c)) →
  let w' := exec (handleSubmit E) w in
  showModal (ui w') = false ∧
  formData (ui w') = Form.empty ∧
  editingCustomer (ui w') = None ∧
  success (ui w') = (match editingCustomer (ui w) with
                     | Some _ => "Customer updated successfully"
                     | None => "Customer added successfully"
                     end) ∧
  timers w' = S (timers w) ∧
  loading (ui w') = false.
Proof.
  intros Hb%String.eqb_neq Hs Hf Hdoc. unfold_handlers. simpl.
  rewrite Hb, Hs. simpl.
  destruct (editingCustomer (ui w)) as [c|]; simpl; rewrite Hf; simpl.
  - destruct (Hdoc c eq_refl) as [doc ->]. simpl. rewrite Hs. simpl.
    by destruct (fails E (length (outbox w ++ _))).
  - rewrite Hs. simpl. by destruct (fails E (length (outbox w ++ _))).
Qed.

End FormProperties.

(** ** Deleting, creating and reloading *)

Lemma customersOfShop_elem (s : string) (d : store) (c : Customer.t) :
  c ∈ customersOfShop s d ↔
  customerDocs d !! Customer.id c = Some (Customer.fields c) ∧
  Customer.shopId c = Some s.
Proof.
  split; [apply customersOfShop_spec|]. intros [Hdoc Hshop].
  unfold customersOfShop. rewrite list_elem_of_In, List.filter_In.
  rewrite <- list_elem_of_In, list_elem_of_fmap, bool_decide_eq_true.
  split; [|done]. exists (Customer.id c, Customer.fields c).
  split; [by destruct c|]. by apply elem_of_map_to_list.
Qed.


Lemma filter_Permutation {A} (f : A → bool) (l l' : list A) :
  l ≡ₚ l' → List.filter f l ≡ₚ List.filter f l'.
Proof.
  induction 1 as [|x l l' _ IH|x y l|l l' l'' _ IH _ IH']; simpl.
  - done.
  - destruct (f x); by rewrite IH.
  - destruct (f x), (f y); try done. apply Permutation_swap.
  - by rewrite IH.
Qed.

Lemma outbox_next_length (l : list sent) (e : sent) :
  length (l ++ [e]) = S (length l).
Proof. rewrite length_app. simpl. lia. Qed.

Section StoreProperties.
Context `{!Builtins} (E : env).

(** X5. A confirmed delete that reaches the store removes the selected
    customer's document and no other, leaves the loans alone, closes the
    dialog, drops the selection, sets the success message and starts one
    timer; it succeeds as well when the document was already gone. *)
Theorem confirmed_delete_removes_document (w : world) (c : Customer.t) :
  customerToDelete (ui w) = Some c →
  fails E (length (outbox w)) = None →
  let w' := exec (confirmDelete E) w in
  customerDocs (db w') !! Customer.id c = None ∧
  (∀ id, id ≠ Customer.id c →
         customerDocs (db w') !! id = customerDocs (db w) !! id) ∧
  loanDocs (db w') = loanDocs (db w) ∧
  customerToDelete (ui w') = None ∧
  showDeleteModal (ui w') = false ∧
  success (ui w') = "Customer deleted successfully" ∧
  timers w' = S (timers w).
Proof.
  intros Hc Hf. unfold_handlers. simpl. rewrite Hc, Hf. simpl.
  destruct (str_truthy (activeShopId w)); simpl;
    [destruct (fails E (length (outbox w ++ _)))|]; simpl;
    (split_and!; [apply lookup_delete_eq| |done..]);
    intros id Hne; by apply lookup_delete_ne.
Qed.

(** X6. When the request of a confirmed delete fails, the dialog stays
    open on the same customer, the store and the list are unchanged, no
    timer is started and the success message is left as it was. *)
Theorem failed_delete_keeps_selection
        (w : world) (c : Customer.t) (message : string) :
  customerToDelete (ui w) = Some c →
  fails E (length (outbox w)) = Some message →
  let w' := exec (confirmDelete E) w in
  customerToDelete (ui w') = Some c ∧
  showDeleteModal (ui w') = showDeleteModal (ui w) ∧
  customers (ui w') = customers (ui w) ∧
  success (ui w') = success (ui w) ∧
  timers w' = timers w ∧
  db w' = db w.
Proof.
  intros Hc Hf. unfold_handlers. simpl. rewrite Hc, Hf. simpl.
  by rewrite Hc.
Qed.

(** X7. After a confirmed delete and a successful reload the list holds
    exactly the documents the active shop has left, and the deleted
    customer is not among them. *)
Theorem deleted_customer_leaves_list (w : world) (c : Customer.t) :
  customerToDelete (ui w) = Some c →
  str_truthy (activeShopId w) = true →
  fails E (length (outbox w)) = None →
  fails E (S (length (outbox w))) = None →
  let w' := exec (confirmDelete E) w in
  customers (ui w') ≡ₚ customersOfShop (str_or (activeShopId w) "") (db w') ∧
  (∀ c', c' ∈ customers (ui w') → Customer.id c' ≠ Customer.id c).
Proof.
  intros Hc Hs Hf Hf'. unfold_handlers. simpl. rewrite Hc, Hf. simpl.
  rewrite Hs. simpl. rewrite outbox_next_length, Hf'. simpl.
  split; [apply sortCustomers_perm|].
  intros c' Hc'. rewrite sortCustomers_perm in Hc'.
  apply customersOfShop_spec in Hc' as [Hdoc _]. simpl in Hdoc.
  intros Heq. rewrite Heq, lookup_delete_eq in Hdoc. done.
Qed.

(** X8. After a create that reaches the store and a successful reload the
    list holds the new customer, under an id no document had before,
    together with exactly the customers the shop had. *)
Theorem created_customer_joins_list (w : world) :
  editingCustomer (ui w) = None →
  trim (Form.name (formData (ui w))) ≠ "" →
  str_truthy (activeShopId w) = true →
  fails E (length (outbox w)) = None →
  fails E (S (length (outbox w))) = None →
  let w' := exec (handleSubmit E) w in
  let shop := str_or (activeShopId w) "" in
  ∃ new : Customer.t,
    customerDocs (db w) !! Customer.id new = None ∧
    Customer.name new = Some (Form.name (formData (ui w))) ∧
    Customer.shopId new = activeShopId w ∧
    customers (ui w') ≡ₚ new :: customersOfShop shop (db w).
Proof.
  intros He Hb%String.eqb_neq Hs Hf Hf'. unfold_handlers. simpl.
  rewrite Hb, Hs, He. simpl. rewrite Hf. simpl. rewrite Hs. simpl.
  rewrite outbox_next_length, Hf'. simpl.
  set (id := fresh (dom (customerDocs (db w)))).
  assert (customerDocs (db w) !! id = None) as Hfresh.
  { apply not_elem_of_dom, is_fresh. }
  exists {| Customer.id := id;
            Customer.fields :=
              customerData (formData (ui w)) (str_or (activeShopId w) "")
                           (Some (now E (ticks w))) (now E (S (ticks w))) |}.
  split_and!; [exact Hfresh|reflexivity|by apply truthy_shop|].
  rewrite sortCustomers_perm. unfold customersOfShop. simpl.
  rewrite (filter_Permutation _ _ _
             (fmap_Permutation snapshotCustomer _ _
                (map_to_list_insert _ _ _ Hfresh))).
  simpl. rewrite bool_decide_true; [done|]. reflexivity.
Qed.

(** X9. A load with an active shop always ends with the spinner off and
    never changes the store.  When the request fails the previous list
    stays in state; when it succeeds the list is replaced by the shop's
    documents, each carrying the shop's id, and an error message set
    earlier is left standing. *)
Theorem fetchCustomers_settles (w : world) :
  str_truthy (activeShopId w) = true →
  let w' := exec (fetchCustomers E) w in
  loading (ui w') = false ∧ db w' = db w ∧
  (is_Some (fails E (length (outbox w))) →
   customers (ui w') = customers (ui w)) ∧
  (fails E (length (outbox w)) = None →
   customers (ui w') ≡ₚ customersOfShop (str_or (activeShopId w) "") (db w) ∧
   Forall (λ c : Customer.t, Customer.shopId c = activeShopId w)
          (customers (ui w')) ∧
   error (ui w') = error (ui w)).
Proof.
  intros Hs. unfold_handlers. simpl. rewrite Hs. simpl.
  destruct (fails E (length (outbox w))) as [m|]; simpl.
  - split_and!; [done..|]. discriminate.
  - split_and!; [done|done|by intros [? [=]]|].
    intros _. split_and!; [apply sortCustomers_perm| |done].
    apply Forall_forall. intros c Hc. rewrite sortCustomers_perm in Hc.
    apply customersOfShop_spec in Hc as [_ ->]. by apply truthy_shop.
Qed.


End StoreProperties.

(** ** What the screen never does *)

(** Unfolds an event down to the handlers it runs. *)
Ltac unfold_event :=
  unfold step, handle, effects, onRow, rows, handleInputChange, handleEdit,
    handleDelete, viewLoans, handleCloseModal, setSearchTerm,
    setShowLoansModal, setSelectedCustomerLoans, setSelectedCustomerName.

Section NeverDoes.
Context `{!Builtins} (E : env).

Lemma send_query_keeps_store (d : store) c s :
  keeps (λ w, db w = d) (send E (Query c s)).
Proof.
  intros w Hw. unfold send.
  by destruct (fails E (length (outbox w))).
Qed.

Lemma effects_keep_store (d : store) : keeps (λ w, db w = d) (effects E).
Proof.
  unfold effects, fetchCustomers, fetchLoans, getDocsCustomers, getDocsLoans.
  keeps_structure; try keeps_frame; apply send_query_keeps_store.
Qed.

(** X12. Only a submit and a confirmed delete can change the store: every
    other event leaves it as it is, and unless it is a change of shop it
    sends no request at all. *)
Theorem only_submit_and_delete_write (w : world) (ev : event) :
  readOnly ev →
  db (step E w ev) = db w ∧
  ((∀ s, ev ≠ ShopChange s) → outbox (step E w ev) = outbox w).
Proof.
  intros Hev. destruct ev; try done.
  { split; [|by intros Hs; destruct (Hs shop)].
    unfold step, handle, exec, mbind, M_bind, get, modify. simpl.
    case_decide; [done|].
    by apply (effects_keep_store (db w) (set_activeShopId shop w)). }
  all: unfold_event; unfold_handlers; simpl; by repeat case_match.
Qed.

(** X13. A screen mounted without an active shop never sends a request:
    as long as no shop becomes active the spinner stays, no row can be
    clicked, and the store is not touched, whatever is typed, submitted or
    confirmed. *)
Theorem no_shop_no_request
        (shop : option string) (d : store) (evs : list event) :
  str_truthy shop = false →
  Forall (staysIn shop) evs →
  let w := run E (mounted E shop d) evs in
  outbox w = [] ∧ db w = d ∧ renderTable (ui w) = Spinner ∧ rows (ui w) = [].
Proof.
  intros Hs Hevs.
  set (I := λ w : world,
         activeShopId w = shop ∧ outbox w = [] ∧ db w = d ∧
         loading (ui w) = true ∧ customerToDelete (ui w) = None).
  assert (∀ w, I w → I (run E w evs)) as Hrun.
  { induction Hevs as [|ev evs Hev _ IH]; intros w Hw; simpl; [done|].
    apply IH. destruct Hw as (Hshop & Hout & Hdb & Hload & Hdel).
    unfold I. destruct ev; simpl in Hev;
      unfold_event; unfold_handlers; simpl;
      rewrite ?Hshop, ?Hs, ?Hload, ?Hdel; simpl.
    - by rewrite decide_True.
    - by destruct (showModal (ui w)).
    - destruct (showModal (ui w)); simpl; [|done].
      destruct (trim (Form.name (formData (ui w))) =? ""); simpl; [done|].
      by rewrite Hshop, Hs.
    - done.
    - done.
    - done.
    - done.
    - destruct (showDeleteModal (ui w)); simpl; [|done]. by rewrite Hdel.
    - done.
    - done.
    - done.
    - done.
    - done.
    - done.
    - by destruct (timers w). }
  assert (I (mounted E shop d)) as Hm.
  { unfold I, mounted, effects. unfold_handlers.
    by repeat (progress (simpl; rewrite ?Hs)). }
  destruct (Hrun _ Hm) as (_ & Hout & Hdb & Hload & _).
  simpl. unfold renderTable, rows. by rewrite Hload.
Qed.

End NeverDoes.

(** ** Searching, sorting and the loan badge *)

Lemma append_assoc (a b c : string) : (a +:+ b) +:+ c = a +:+ (b +:+ c).
Proof.
  induction a as [|x a IH]; [done|].
  by rewrite !append_cons, IH.
Qed.

Lemma substringOf_trans (a b c : string) :
  substringOf a b → substringOf b c → substringOf a c.
Proof.
  intros (p1 & s1 & ->) (p2 & s2 & ->).
  exists (p2 +:+ p1), (s1 +:+ s2). by rewrite !append_assoc.
Qed.

Lemma includes_empty (s : string) : includes s "" = true.
Proof. by destruct s. Qed.

Lemma filter_filter_implied {A} (f g : A → bool) (l : list A) :
  (∀ x, f x = true → g x = true) →
  List.filter f (List.filter g l) = List.filter f l.
Proof.
  intros Hfg. induction l as [|x l IH]; simpl; [done|].
  destruct (g x) eqn:Hg; simpl.
  - by rewrite IH.
  - destruct (f x) eqn:Hf; [|done].
    apply Hfg in Hf. congruence.
Qed.

Lemma js_sort_sorted_id {A} (cmp : A → A → Z) (l : list A) :
  Sorted (inOrder cmp) l → js_sort cmp l = l.
Proof.
  induction 1 as [|x l Hl IH Hx]; simpl; [done|].
  fold (js_sort cmp l). rewrite IH.
  destruct Hx as [|y l Hxy]; simpl; [done|].
  unfold inOrder in Hxy. by rewrite (proj2 (Z.ltb_ge _ _) Hxy).
Qed.

Lemma str_or_falsy (o : option string) (d : string) :
  str_truthy o = false → str_or o d = d.
Proof. by destruct o as [[|]|]. Qed.

Section MoreViewProperties.
Context `{!Builtins}.

(** X14. Typing more narrows the result: when a term occurs in a longer
    one, as typed and in lowercase, searching the longer term among the
    customers found by the shorter one gives the same rows as searching it
    in the whole list. *)
Theorem search_narrows (customers : list Customer.t) (t t' : string) :
  substringOf t t' →
  substringOf (toLowerCase t) (toLowerCase t') →
  filteredCustomers (filteredCustomers customers t) t'
  = filteredCustomers customers t'.
Proof.
  intros Ht Hlow. unfold filteredCustomers.
  apply filter_filter_implied. intros c. rewrite !matchesSearch_spec.
  intros [(n & Hn & Hs)|[(p & Hp & Hs)|(e & He & Hs)]].
  - left. exists n. split; [done|]. by apply substringOf_trans with (toLowerCase t').
  - right. left. exists p. split; [done|]. by apply substringOf_trans with t'.
  - right. right. exists e. split; [done|].
    by apply substringOf_trans with (toLowerCase t').
Qed.

(** X15. With an empty search term the rows are the customers that hold a
    name, a phone or an e-mail, in the order of the list (given that the
    lowercase of the empty string is empty). *)
Theorem empty_search_shows_customers_with_contact (customers : list Customer.t) :
  toLowerCase "" = "" →
  filteredCustomers customers "" = List.filter hasContactField customers.
Proof.
  intros Hlow. unfold filteredCustomers. apply List.filter_ext.
  intros c. unfold matchesSearch, hasContactField. rewrite Hlow.
  destruct (Customer.name c), (Customer.phone c), (Customer.email c);
    simpl; rewrite ?includes_empty, ?orb_true_r; done.
Qed.

(** X16. Sorting is idempotent: a list that went through the sort of the
    load comes out of it unchanged, so reloading the same documents in the
    order held in state does not reorder the rows. *)
Theorem sortCustomers_idempotent (customersData : list Customer.t) :
  (∀ a b, (0 < localeCompare a b)%Z → (localeCompare b a ≤ 0)%Z) →
  sortCustomers (sortCustomers customersData) = sortCustomers customersData.
Proof.
  intros Htotal. unfold sortCustomers.
  apply js_sort_sorted_id, js_sort_Sorted.
  intros a b. apply Htotal.
Qed.

(** X17. Loans go by name, not by customer: two customers whose names
    agree once lowercased (missing names being empty) are shown the same
    loans, count and total. *)
Theorem loans_follow_the_name (loans : list Loan.t) (a b : Customer.t) :
  toLowerCase (default "" (Customer.name a))
  = toLowerCase (default "" (Customer.name b)) →
  custLoans loans a = custLoans loans b ∧
  loanSummary loans a = loanSummary loans b.
Proof.
  intros Hname.
  assert (custLoans loans a = custLoans loans b) as Heq.
  { unfold custLoans. apply List.filter_ext. intros l. unfold loanOf.
    by rewrite !str_or_default, Hname. }
  split; [done|]. unfold loanSummary. by rewrite Heq.
Qed.

(** X18. A customer without a name (missing or empty) is credited with
    every loan whose customerName is missing or empty. *)
Theorem nameless_customer_gets_nameless_loans
        (loans : list Loan.t) (c : Customer.t) (l : Loan.t) :
  str_truthy (Customer.name c) = false →
  str_truthy (Loan.customerName l) = false →
  l ∈ loans →
  l ∈ custLoans loans c.
Proof.
  intros Hc Hl Hin. unfold custLoans.
  apply list_elem_of_In, List.filter_In. split; [by apply list_elem_of_In|].
  unfold loanOf. rewrite !str_or_falsy by done. apply String.eqb_refl.
Qed.

(** X19. A customer none of whose loans match shows a count of zero and a
    total of [+0]; in particular every customer does while the loans are
    not loaded. *)
Theorem no_loans_zero_summary (loans : list Loan.t) (c : Customer.t) :
  (∀ l, l ∈ loans → loanOf c l = false) →
  loanSummary loans c = (0, js_zero).
Proof.
  intros Hnone. unfold loanSummary, custLoans.
  assert (List.filter (loanOf c) loans = []) as ->; [|done].
  induction loans as [|l loans IH]; simpl; [done|].
  rewrite (Hnone l) by apply list_elem_of_here.
  apply IH. intros l' Hl'. apply Hnone. by apply list_elem_of_further.
Qed.

(** X20. The table shows the spinner, a message or at least one row, never
    an empty table; and when no customer holds a name, a phone or an
    e-mail it shows the message (with an empty search term: that no
    customers were added yet) however many customers the total counts. *)
Theorem renderTable_never_empty_table (st : state) :
  (∀ shown, renderTable st = Table shown →
            shown ≠ [] ∧
            shown = filteredCustomers (customers st) (searchTerm st)) ∧
  (loading st = false →
   (∀ c, c ∈ customers st → hasContactField c = false) →
   renderTable st = EmptyState (match searchTerm st with
                                | "" => NoCustomersYet
                                | _ => NoCustomersFound
                                end) ∧
   totalCustomers st = length (customers st)).
Proof.
  unfold renderTable. split.
  - intros shown. destruct (loading st); [done|].
    destruct (filteredCustomers _ _) as [|c l]; [done|].
    by intros [= <-].
  - intros -> Hnone. split; [|done].
    assert (filteredCustomers (customers st) (searchTerm st) = []) as ->;
      [|done].
    unfold filteredCustomers.
    induction (customers st) as [|c l IH]; simpl; [done|].
    assert (matchesSearch (searchTerm st) c = false) as ->.
    { specialize (Hnone c (list_elem_of_here _ _)).
      unfold hasContactField in Hnone. unfold matchesSearch.
      by destruct (Customer.name c), (Customer.phone c), (Customer.email c). }
    apply IH. intros c' Hc'. apply Hnone. by apply list_elem_of_further.
Qed.

End MoreViewProperties.

(** * The further properties on the example data *)

(** X2 on the first row of shop A, which has no e-mail. *)
Lemma edit_then_save_witness :
  ∃ wr rest data,
    sentBy (handleSubmit reliable) (exec (handleEdit al) loadedA) = wr :: rest ∧
    req wr = Update "c3" data ∧
    Customer.phone data = Some "0301" ∧
    Customer.email data = Some "".
Proof.
  destruct (edit_then_save_fills_missing_fields reliable loadedA al)
    as (_ & wr & rest & data & Hsent & Hreq & _ & Hphone & Hemail & _);
    [vm_compute; discriminate | vm_compute; reflexivity |].
  by exists wr, rest, data.
Defined.

(** X3 on a create whose request fails. *)
Lemma failed_save_witness :
  showModal (ui (exec (handleSubmit (offlineAt 2)) addingZed)) = true ∧
  Form.name (formData (ui (exec (handleSubmit (offlineAt 2)) addingZed)))
    = "Zed" ∧
  db (exec (handleSubmit (offlineAt 2)) addingZed) = db addingZed.
Proof.
  destruct (failed_save_keeps_form (offlineAt 2) addingZed "offline")
    as (Hmodal & Hform & _ & _ & _ & _ & Hdb);
    [vm_compute; discriminate | vm_compute; reflexivity..|].
  rewrite Hmodal, Hform. by split_and!.
Defined.

(** X4 on a create that succeeds. *)
Lemma successful_save_witness :
  showModal (ui (exec (handleSubmit reliable) addingZed)) = false ∧
  formData (ui (exec (handleSubmit reliable) addingZed)) = Form.empty ∧
  success (ui (exec (handleSubmit reliable) addingZed))
    = "Customer added successfully".
Proof.
  destruct (successful_save_resets_form reliable addingZed)
    as (Hmodal & Hform & _ & Hsuccess & _);
    [vm_compute; discriminate | vm_compute; reflexivity | reflexivity | |].
  - intros c Hc. vm_compute in Hc. discriminate Hc.
  - split_and!; [exact Hmodal | exact Hform | exact Hsuccess].
Defined.

(** X5 on the delete of the first row. *)
Lemma confirmed_delete_witness :
  customerDocs (db (exec (confirmDelete reliable) deletingFirstRow)) !! "c3"
    = None ∧
  customerToDelete (ui (exec (confirmDelete reliable) deletingFirstRow))
    = None.
Proof.
  destruct (confirmed_delete_removes_document reliable deletingFirstRow al)
    as (Hgone & _ & _ & Hsel & _); [vm_compute; reflexivity..|].
  by split.
Defined.

(** X6 on the same delete when the request fails. *)
Lemma failed_delete_witness :
  customerToDelete (ui (exec (confirmDelete (offlineAt 2)) deletingFirstRow))
    = Some al ∧
  db (exec (confirmDelete (offlineAt 2)) deletingFirstRow)
    = db deletingFirstRow.
Proof.
  destruct (failed_delete_keeps_selection
              (offlineAt 2) deletingFirstRow al "offline")
    as (Hsel & _ & _ & _ & _ & Hdb); [vm_compute; reflexivity..|].
  by split.
Defined.

(** X7 on the delete of the first row followed by the reload. *)
Lemma deleted_customer_witness :
  customers (ui (exec (confirmDelete reliable) deletingFirstRow))
  ≡ₚ customersOfShop (str_or (activeShopId deletingFirstRow) "")
                     (db (exec (confirmDelete reliable) deletingFirstRow)).
Proof.
  apply (deleted_customer_leaves_list reliable deletingFirstRow al);
    vm_compute; reflexivity.
Defined.

(** X8 on the create of Zed. *)
Lemma created_customer_witness :
  ∃ new : Customer.t,
    Customer.name new = Some "Zed" ∧
    customers (ui (exec (handleSubmit reliable) addingZed))
    ≡ₚ new :: customersOfShop "A" (db addingZed).
Proof.
  destruct (created_customer_joins_list reliable addingZed)
    as (new & _ & Hname & _ & Hlist);
    [vm_compute; reflexivity | vm_compute; discriminate
    | vm_compute; reflexivity..|].
  exists new. split; [exact Hname | exact Hlist].
Defined.

(** X9 on a reload of the loaded screen. *)
Lemma fetchCustomers_settles_witness :
  loading (ui (exec (fetchCustomers reliable) loadedA)) = false ∧
  db (exec (fetchCustomers reliable) loadedA) = db loadedA.
Proof.
  destruct (fetchCustomers_settles reliable loadedA)
    as (Hload & Hdb & _); [vm_compute; reflexivity|].
  by split.
Defined.


(** X12 on a search typed into the loaded screen. *)
Lemma read_only_event_witness :
  db (step reliable loadedA (Search "bo")) = db loadedA ∧
  outbox (step reliable loadedA (Search "bo")) = outbox loadedA.
Proof.
  destruct (only_submit_and_delete_write reliable loadedA (Search "bo") I)
    as (Hdb & Hout).
  split; [exact Hdb | by apply Hout].
Defined.

(** X13 on a submit attempted without a shop. *)
Lemma no_shop_witness :
  outbox (run reliable (mounted reliable None exampleStore)
              [ClickAdd; InputChange FName "Zed"; Submit]) = [] ∧
  db (run reliable (mounted reliable None exampleStore)
          [ClickAdd; InputChange FName "Zed"; Submit]) = exampleStore.
Proof.
  destruct (no_shop_no_request reliable None exampleStore
              [ClickAdd; InputChange FName "Zed"; Submit])
    as (Hout & Hdb & _); [reflexivity | repeat constructor |].
  by split.
Defined.

(** X14 on 'bo' and 'bob'. *)
Lemma search_narrows_witness :
  filteredCustomers (filteredCustomers [bob; al] "bo") "bob"
  = filteredCustomers [bob; al] "bob".
Proof.
  apply search_narrows; apply includes_spec; reflexivity.
Defined.

(** X15 on a list with a customer that holds no contact field. *)
Lemma empty_search_witness :
  filteredCustomers [bob; anonymous] ""
  = List.filter hasContactField [bob; anonymous].
Proof. apply empty_search_shows_customers_with_contact. reflexivity. Defined.

(** X16 on two customers. *)
Lemma sortCustomers_idempotent_witness :
  sortCustomers (sortCustomers [bob; al]) = sortCustomers [bob; al].
Proof.
  apply sortCustomers_idempotent. apply ascii_localeCompare_total.
Defined.

(** X17 on 'Bob' and 'BOB'. *)
Lemma loans_follow_the_name_witness :
  custLoans [openLoan; paidLoan] bob = custLoans [openLoan; paidLoan] bobUpper ∧
  loanSummary [openLoan; paidLoan] bob
  = loanSummary [openLoan; paidLoan] bobUpper.
Proof. apply loans_follow_the_name. reflexivity. Defined.

(** X18 on a customer and a loan without names. *)
Lemma nameless_loans_witness :
  namelessLoan ∈ custLoans [openLoan; namelessLoan] anonymous.
Proof.
  apply nameless_customer_gets_nameless_loans; [reflexivity..|].
  apply list_elem_of_further, list_elem_of_here.
Defined.

(** X19 on a customer whose name is on no loan. *)
Lemma no_loans_witness : loanSummary [openLoan] al = (0, js_zero).
Proof.
  apply no_loans_zero_summary. intros l Hl.
  apply list_elem_of_singleton in Hl as ->. reflexivity.
Defined.

(** X20 on a screen whose only customer has no contact field. *)
Lemma renderTable_witness :
  renderTable anonymousOnly = EmptyState NoCustomersYet ∧
  totalCustomers anonymousOnly = 1.
Proof.
  apply (proj2 (renderTable_never_empty_table anonymousOnly)); [reflexivity|].
  intros c Hc. apply list_elem_of_singleton in Hc as ->. reflexivity.
Defined.
